(** * The options hedge menu: controller and view

    A shallow embedding of [hedge_controller.py] (class [HedgeController])
    and [hedge_view.py], with the session invariants and command contracts
    stated over it.

    Conventions of the embedding.
    - Python floats that the two files only store, compare or divide once
      are exact rationals ([Q]); [==] on them is [Qeq_bool].  The three
      weights returned by [calc_hedge], which the view adds before it tests
      the total, are IEEE 754 doubles ([float]): their additions round as
      Python's do.
    - The two dictionaries [self.options] and [self.greeks] are finite maps
      keyed by strings.  A leg dictionary is either [{}] or the five-key
      literal built by [call_add], hence an [option Leg]; a Greeks
      dictionary is filled key by key, hence a map of its own.
    - A command is a computation over the controller that may print, call
      one of the collaborators, or raise; every printed line and every
      collaborator call is recorded, in order, in the trace of the command. *)

From Stdlib Require Import PrimFloat.
From Stdlib Require Import QArith ZArith List Bool.
From stdpp Require Import gmap strings list.

Local Open Scope string_scope.
Local Open Scope Z_scope.

(** ** Data *)

(** The dictionary literal [option] of [call_add]. *)
Record Leg := {
  leg_type : string;               (* "type": "Put" | "Call" *)
  leg_sign : Z;                    (* "sign": -1 | 1 *)
  leg_strike : Q;                  (* "strike" *)
  leg_implied_volatility : Q;      (* "implied_volatility" *)
  leg_cost : Q                     (* "cost" *)
}.

(** What [self.strike] holds: the float [0.0] of the constructor, or the
    text the user typed after [pick]. *)
Inductive pyval :=
| PyFloat (q : Q)
| PyStr (s : string).

(** [a == b] where [a] is a float of the chain: a float never equals a
    string. *)
Definition py_eq (a : Q) (b : pyval) : bool :=
  match b with
  | PyFloat q => Qeq_bool a q
  | PyStr _ => false
  end.

(** A row of the chain: [(strike, impliedVolatility, lastPrice)]. *)
Definition chain_row : Type := Q * Q * Q.

Definition row_strike (r : chain_row) : Q := fst (fst r).
Definition row_iv (r : chain_row) : Q := snd (fst r).
Definition row_last (r : chain_row) : Q := snd r.

(** The attributes of [HedgeController] that the commands read or write.
    [calls] and [puts] are [self.calls] and [self.puts], the zipped columns
    of [self.chain.calls] and [self.chain.puts]; the chain is fetched once
    by the constructor and never written, so the same rows also stand for
    the columns of the chain.  [interactive] is
    [session and obbff.USE_PROMPT_TOOLKIT]; [choices_rmv] is
    [self.choices["rmv"]]. *)
Record HedgeController := {
  underlying_asset_position : string;
  calls : list chain_row;
  puts : list chain_row;
  ticker : string;
  current_price : Q;
  expiration : string;
  options : gmap string (option Leg);
  underlying : Z;
  side : string;
  amount : Q;
  strike : pyval;
  greeks : gmap string (gmap string Q);
  interactive : bool;
  choices_rmv : option (list string)
}.

Definition set_underlying_asset_position (v : string) (c : HedgeController) :=
  {| underlying_asset_position := v; calls := calls c; puts := puts c;
     ticker := ticker c; current_price := current_price c;
     expiration := expiration c; options := options c;
     underlying := underlying c; side := side c; amount := amount c;
     strike := strike c; greeks := greeks c; interactive := interactive c;
     choices_rmv := choices_rmv c |}.

Definition set_options (v : gmap string (option Leg)) (c : HedgeController) :=
  {| underlying_asset_position := underlying_asset_position c;
     calls := calls c; puts := puts c;
     ticker := ticker c; current_price := current_price c;
     expiration := expiration c; options := v;
     underlying := underlying c; side := side c; amount := amount c;
     strike := strike c; greeks := greeks c; interactive := interactive c;
     choices_rmv := choices_rmv c |}.

Definition set_underlying (v : Z) (c : HedgeController) :=
  {| underlying_asset_position := underlying_asset_position c;
     calls := calls c; puts := puts c;
     ticker := ticker c; current_price := current_price c;
     expiration := expiration c; options := options c;
     underlying := v; side := side c; amount := amount c;
     strike := strike c; greeks := greeks c; interactive := interactive c;
     choices_rmv := choices_rmv c |}.

Definition set_side (v : string) (c : HedgeController) :=
  {| underlying_asset_position := underlying_asset_position c;
     calls := calls c; puts := puts c;
     ticker := ticker c; current_price := current_price c;
     expiration := expiration c; options := options c;
     underlying := underlying c; side := v; amount := amount c;
     strike := strike c; greeks := greeks c; interactive := interactive c;
     choices_rmv := choices_rmv c |}.

Definition set_amount (v : Q) (c : HedgeController) :=
  {| underlying_asset_position := underlying_asset_position c;
     calls := calls c; puts := puts c;
     ticker := ticker c; current_price := current_price c;
     expiration := expiration c; options := options c;
     underlying := underlying c; side := side c; amount := v;
     strike := strike c; greeks := greeks c; interactive := interactive c;
     choices_rmv := choices_rmv c |}.

Definition set_strike (v : pyval) (c : HedgeController) :=
  {| underlying_asset_position := underlying_asset_position c;
     calls := calls c; puts := puts c;
     ticker := ticker c; current_price := current_price c;
     expiration := expiration c; options := options c;
     underlying := underlying c; side := side c; amount := amount c;
     strike := v; greeks := greeks c; interactive := interactive c;
     choices_rmv := choices_rmv c |}.

Definition set_greeks (v : gmap string (gmap string Q)) (c : HedgeController) :=
  {| underlying_asset_position := underlying_asset_position c;
     calls := calls c; puts := puts c;
     ticker := ticker c; current_price := current_price c;
     expiration := expiration c; options := options c;
     underlying := underlying c; side := side c; amount := amount c;
     strike := strike c; greeks := v; interactive := interactive c;
     choices_rmv := choices_rmv c |}.

Definition set_choices_rmv (v : option (list string)) (c : HedgeController) :=
  {| underlying_asset_position := underlying_asset_position c;
     calls := calls c; puts := puts c;
     ticker := ticker c; current_price := current_price c;
     expiration := expiration c; options := options c;
     underlying := underlying c; side := side c; amount := amount c;
     strike := strike c; greeks := greeks c; interactive := interactive c;
     choices_rmv := v |}.

(** [HedgeController.__init__], given what the market-data provider
    returned.  Building [PICK_CHOICES] reads [self.calls[0]], so no
    controller exists for an empty list of calls. *)
Definition init (tk exp : string) (chain_calls chain_puts : list chain_row)
    (price : Q) (inter : bool) : option HedgeController :=
  match chain_calls with
  | [] => None
  | _ :: _ =>
      Some {| underlying_asset_position := "";
              calls := chain_calls; puts := chain_puts;
              ticker := tk; current_price := price; expiration := exp;
              options := {[ "Portfolio" := None; "Option A" := None;
                            "Option B" := None ]};
              underlying := 0; side := ""; amount := 0%Q;
              strike := PyFloat 0%Q;
              greeks := {[ "Portfolio" := ∅; "Option A" := ∅;
                           "Option B" := ∅ ]};
              interactive := inter; choices_rmv := None |}
  end.

(** ** Traces and the command monad *)

(** One row of the "Current Option Positions" table:
    type, hold, strike, implied volatility. *)
Definition position_row : Type := string * string * Q * Q.

Inductive event :=
| Print (text : string)
    (* console.print(text) *)
| PrintCost (c : Q)
    (* print(cost) *)
| PositionsTable (rows : list position_row)
    (* print_rich_table(positions, title="Current Option Positions") *)
| GreeksTable (delta gamma vega iv k : Q)
    (* the table of add_and_show_greeks *)
| WeightsTable (wa wb ws : float)
    (* print_rich_table(positions, title="Neutral Portfolio Weights") *)
| GreeksCall (price iv k t : Q) (sd : Z)
    (* hedge_model.add_hedge_option(price, iv, k, t, sd) *)
| HedgeCall (amt : Q) (sd : string) (g : gmap string (gmap string Q)) (sg : Z)
    (* hedge_model.calc_hedge(amt, sd, g, sg) *)
| PlotPayoff (price : Q) (legs : list (option Leg)) (und : Z) (tk exp : string).
    (* plot_payoff(price, legs, und, tk, exp) *)

Inductive exn :=
| KeyError (key : string)
| IndexError
| ValueError
| TypeError.

(** The result of running a command: it returns or raises, and either way
    leaves a controller and a trace behind. *)
Inductive outcome (A : Type) :=
| Ret (a : A) (c : HedgeController) (out : list event)
| Raise (e : exn) (c : HedgeController) (out : list event).
Arguments Ret {A} a c out.
Arguments Raise {A} e c out.

Definition M (A : Type) : Type := HedgeController -> outcome A.

Definition ret {A} (a : A) : M A := fun c => Ret a c [].

Definition bind {A B} (m : M A) (k : A -> M B) : M B := fun c =>
  match m c with
  | Ret a c1 o1 =>
      match k a c1 with
      | Ret b c2 o2 => Ret b c2 (o1 ++ o2)
      | Raise e c2 o2 => Raise e c2 (o1 ++ o2)
      end
  | Raise e c1 o1 => Raise e c1 o1
  end.

Notation "x <- m ;; k" := (bind m (fun x => k))
  (at level 100, m at next level, right associativity).
Notation "m ;;; k" := (bind m (fun _ => k))
  (at level 100, right associativity).

Definition get : M HedgeController := fun c => Ret c c [].
Definition modify (f : HedgeController -> HedgeController) : M unit :=
  fun c => Ret tt (f c) [].
Definition emit (e : event) : M unit := fun c => Ret tt c [e].
Definition raise {A} (e : exn) : M A := fun c => Raise e c [].

Definition final {A} (o : outcome A) : HedgeController :=
  match o with Ret _ c _ => c | Raise _ c _ => c end.
Definition trace {A} (o : outcome A) : list event :=
  match o with Ret _ _ out => out | Raise _ _ out => out end.
Definition returns {A} (o : outcome A) : bool :=
  match o with Ret _ _ _ => true | Raise _ _ _ => false end.

(** ** Python's dictionary and sequence operations *)

(** [d[k]] *)
Definition getitem {V} (d : gmap string V) (k : string) : M V :=
  match d !! k with
  | Some v => ret v
  | None => raise (KeyError k)
  end.

(** [k in d] *)
Definition contains {V} (d : gmap string V) (k : string) : bool :=
  match d !! k with Some _ => true | None => false end.

(** Truth value of a Greeks dictionary: false exactly for [{}]. *)
Definition truthy (d : gmap string Q) : bool := negb (bool_decide (d = ∅)).

(** Truth value of a leg dictionary. *)
Definition leg_truthy (l : option Leg) : bool :=
  match l with Some _ => true | None => false end.

(** [leg[field]] on a leg dictionary: [{}] has no key. *)
Definition leg_getitem {A} (l : option Leg) (key : string) (f : Leg -> A) : M A :=
  match l with
  | Some x => ret (f x)
  | None => raise (KeyError key)
  end.

(** [series.iloc[i]]: negative positions count from the end. *)
Definition iloc {A} (l : list A) (i : Z) : M A :=
  let n := Z.of_nat (length l) in
  let j := if i <? 0 then n + i else i in
  if (0 <=? j) && (j <? n)
  then match nth_error l (Z.to_nat j) with
       | Some x => ret x
       | None => raise IndexError
       end
  else raise IndexError.

(** [self.greeks[slot][key] = v] *)
Definition greeks_setitem (slot key : string) (v : Q) : M unit :=
  c <- get ;;
  d <- getitem (greeks c) slot ;;
  modify (set_greeks (<[slot := <[key := v]> d]> (greeks c))).

(** [self.options[slot] = v] *)
Definition options_setitem (slot : string) (v : option Leg) : M unit :=
  modify (fun c => set_options (<[slot := v]> (options c)) c).

(** The line feed that ends most messages. *)
Definition nl : string := String (Ascii.ascii_of_nat 10) EmptyString.

(** [l[i]] for an index that is not negative. *)
Definition list_getitem {A} (l : list A) (i : nat) : M A :=
  match nth_error l i with
  | Some x => ret x
  | None => raise IndexError
  end.

(** The rows printed under "Current Option Positions":
    [for _, values in self.options.items(): if values: ...].  The keys were
    inserted in the order Portfolio, Option A, Option B, and that is the
    order in which a dictionary is walked. *)
Definition positions_of (o : gmap string (option Leg)) : list position_row :=
  flat_map
    (fun k =>
       match o !! k with
       | Some (Some v) =>
           [(leg_type v, (if leg_sign v =? 1 then "Long" else "Short"),
             leg_strike v, leg_implied_volatility v)]
       | _ => []
       end)
    ["Portfolio"; "Option A"; "Option B"].

(** [days = float((date_obj - datetime.now()).days + 1)], then
    [if days == 0.0: days = 0.01].  The argument is the [.days] of the
    difference, as read from the clock when the command runs. *)
Definition days_to_expiry (delta_days : Z) : Q :=
  let days := inject_Z (delta_days + 1) in
  if Qeq_bool days 0 then (1 # 100)%Q else days.

(** [days / 365], the time handed to the calculator. *)
Definition years_to_expiry (delta_days : Z) : Q :=
  (days_to_expiry delta_days / 365)%Q.

(** The lookup loop of [call_pick]: the position of the first row whose
    strike equals [target], or the initial [-1]. *)
Fixpoint find_strike (col : list chain_row) (target : pyval) (i : Z) : Z :=
  match col with
  | [] => -1
  | r :: rest =>
      if py_eq (row_strike r) target then i
      else find_strike rest target (i + 1)
  end.

(** [sum([a, b, c])] on floats: the built-in starts from the integer [0]
    and adds the items from left to right, every addition rounded to the
    nearest double. *)
Definition py_sum3 (a b c : float) : float :=
  PrimFloat.add (PrimFloat.add (PrimFloat.add 0 a) b) c.

(** [bool(x)] on a float: [x != 0.0], so both zeros are false and a NaN is
    true. *)
Definition float_truthy (x : float) : bool := negb (PrimFloat.eqb x 0).

(** ** Messages *)

Definition msg_pick_first : string :=
  "Please set the Underlying Asset Position by using the 'pick' command." ++ nl.
Definition msg_two_options : string :=
  "[red]The functionality only accepts two options. Therefore, please remove an "
  ++ "option with 'rmv' before continuing.[/red]" ++ nl.
Definition msg_valid_index : string := "Please use a valid index" ++ nl.
Definition msg_add_options : string :=
  "Please add Options by using the 'add' command." ++ nl.
Definition msg_not_an_option (option_name : string) : string :=
  option_name ++ " is not an option.".
Definition msg_nothing_selected : string :=
  "No options have been selected, removing them is not possible" ++ nl.
Definition msg_first_feasible : string :=
  "[red]Warning" ++ nl ++ "[/red]"
  ++ "The selected combination of options yields multiple solutions." ++ nl
  ++ "This is the first feasible solution, possibly not the best one.".
Definition msg_cannot_solve : string :=
  "[red]Due to there being multiple solutions (Singular Matrix) the current options "
  ++ "combination can not be solved. Please input different options.[/red]".

(** ** Parsed command lines *)

(** The namespace of [add]. *)
Record add_args := {
  put : bool;                      (* -p / --put *)
  short : bool;                    (* -s / --short *)
  identifier : nat                 (* -i, checked non-negative *)
}.

(** The namespace of [rmv]. *)
Record rmv_args := {
  option_words : option (list string);  (* -o, nargs="+"; None when absent *)
  all : bool                            (* -a / --all *)
}.

(** The namespace of [pick]; [amount_arg = None] is the default, the
    integer 1000. *)
Record pick_args := {
  pick : list string;              (* -p, nargs="+" *)
  amount_arg : option string       (* -a *)
}.

(** ** Observations on controllers and traces *)

(** ["Delta" in self.greeks[slot]] *)
Definition delta_in (c : HedgeController) (slot : string) : bool :=
  match greeks c !! slot with
  | Some g => contains g "Delta"
  | None => false
  end.

(** [bool(self.greeks[slot])]: the Greeks entry of the slot is not empty. *)
Definition greeks_in (c : HedgeController) (slot : string) : bool :=
  match greeks c !! slot with
  | Some g => truthy g
  | None => false
  end.

(** [bool(self.options[slot])]: the slot holds a leg. *)
Definition leg_in (c : HedgeController) (slot : string) : bool :=
  match options c !! slot with
  | Some l => leg_truthy l
  | None => false
  end.

(** The first slot without a recorded Delta, where [call_add] stores. *)
Definition free_slot (c : HedgeController) : option string :=
  if negb (delta_in c "Option A") then Some "Option A"
  else if negb (delta_in c "Option B") then Some "Option B"
  else None.

Definition other_slot (slot : string) : string :=
  if String.eqb slot "Option A" then "Option B" else "Option A".

(** The arguments of the calls of the Greeks calculator, in order. *)
Definition calculator_calls (out : list event) : list (Q * Q * Q * Q * Z) :=
  flat_map
    (fun e => match e with
              | GreeksCall price iv k t sd => [(price, iv, k, t, sd)]
              | _ => []
              end) out.

(** The time argument of each call of the Greeks calculator. *)
Definition calculator_times (out : list event) : list Q :=
  map (fun x => snd (fst x)) (calculator_calls out).

(** The side and sign arguments of the calls of the solver, in order. *)
Definition hedge_sides (out : list event) : list (string * Z) :=
  flat_map
    (fun e => match e with
              | HedgeCall _ sd _ sg => [(sd, sg)]
              | _ => []
              end) out.

(** The Greeks dictionary handed to each call of the solver. *)
Definition hedge_greeks (out : list event) : list (gmap string (gmap string Q)) :=
  flat_map
    (fun e => match e with
              | HedgeCall _ _ g _ => [g]
              | _ => []
              end) out.

(** The legs handed to each call of the payoff renderer. *)
Definition plot_calls (out : list event) : list (list (option Leg)) :=
  flat_map
    (fun e => match e with
              | PlotPayoff _ legs _ _ _ => [legs]
              | _ => []
              end) out.

(** The texts printed on the console. *)
Definition messages (out : list event) : list string :=
  flat_map (fun e => match e with Print text => [text] | _ => [] end) out.

(** Both dictionaries hold the keys that the commands index without a
    membership test. *)
Definition has_keys (c : HedgeController) : Prop :=
  is_Some (greeks c !! "Portfolio") ∧
  is_Some (greeks c !! "Option A") ∧
  is_Some (greeks c !! "Option B") ∧
  is_Some (options c !! "Option A") ∧
  is_Some (options c !! "Option B").

(** A stored leg has its Delta recorded. *)
Definition legs_have_greeks (c : HedgeController) : Prop :=
  (leg_in c "Option A" = true -> delta_in c "Option A" = true) ∧
  (leg_in c "Option B" = true -> delta_in c "Option B" = true).

(** The Greeks entry of a slot is non-empty exactly when its leg is. *)
Definition slot_consistent (c : HedgeController) (slot : string) : Prop :=
  greeks_in c slot = leg_in c slot.

(** The controller with a leg and its three Greeks written under [slot],
    whose Greeks dictionary was [g] before. *)
Definition with_leg (slot : string) (opt : Leg) (g : gmap string Q)
    (r : Q * Q * Q) (c : HedgeController) : HedgeController :=
  set_greeks
    (<[slot := <["Vega" := snd r]>
                 (<["Gamma" := snd (fst r)]> (<["Delta" := fst (fst r)]> g))]>
       (greeks c))
    (set_options (<[slot := Some opt]> (options c)) c).

(** The controller after [update_runtime_choices]. *)
Definition refreshed (c : HedgeController) : HedgeController :=
  if negb (bool_decide (options c = ∅)) && interactive c
  then set_choices_rmv (Some ["Option A"; "Option B"]) c
  else c.

(** The leg that [call_add] builds from the namespace and the chain row. *)
Definition leg_of (ns : add_args) (row : chain_row) : Leg :=
  {| leg_type := if put ns then "Put" else "Call";
     leg_sign := if short ns then -1 else 1;
     leg_strike := row_strike row;
     leg_implied_volatility := row_iv row;
     leg_cost := row_last row |}.

(** The list [call_add] indexes: [self.puts if ns_parser.put else self.calls]. *)
Definition options_list (ns : add_args) (c : HedgeController) : list chain_row :=
  if put ns then puts c else calls c.

(** The [choices] that the parser of [add] gives to [-i]:
    [self.put_index_choices if "-p" in other_args else
    self.call_index_choices], the ranges over the puts and over the calls
    that the constructor sets. *)
Definition index_choices (other_args : list string) (c : HedgeController)
    : list nat :=
  if existsb (String.eqb "-p") other_args then seq 0 (length (puts c))
  else seq 0 (length (calls c)).

(** ** The view and the commands *)

Section Commands.

(** [hedge_model.add_hedge_option] and [hedge_model.calc_hedge] are the
    numerical core, which lives outside the controller and the view; they
    are taken as they come, as pure functions.  [py_float] is Python's
    [float] on text, [None] where it raises [ValueError]. *)
Variable add_hedge_option : Q -> Q -> Q -> Q -> Z -> Q * Q * Q.
Variable calc_hedge :
  Q -> string -> gmap string (gmap string Q) -> Z ->
  float * float * float * bool.
Variable py_float : string -> option Q.

(** A call of [hedge_model.add_hedge_option], recorded in the trace. *)
Definition hedge_model_add_hedge_option (price iv k t : Q) (sd : Z)
    : M (Q * Q * Q) :=
  emit (GreeksCall price iv k t sd) ;;;
  ret (add_hedge_option price iv k t sd).

(** [hedge_view.add_and_show_greeks] *)
Definition add_and_show_greeks (price implied_volatility k days : Q) (sd : Z)
    : M (Q * Q * Q) :=
  r <- hedge_model_add_hedge_option price implied_volatility k days sd ;;
  let '(delta, gamma, vega) := r in
  emit (GreeksTable delta gamma vega implied_volatility k) ;;;
  emit (Print "") ;;;
  ret (delta, gamma, vega).

(** [hedge_view.show_calculated_hedge] *)
Definition show_calculated_hedge (portfolio_option_amount : Q) (sd : string)
    (g : gmap string (gmap string Q)) (sg : Z) : M unit :=
  emit (HedgeCall portfolio_option_amount sd g sg) ;;;
  let '(weight_option_a, weight_option_b, weight_shares, is_singular) :=
    calc_hedge portfolio_option_amount sd g sg in
  if float_truthy (py_sum3 weight_option_a weight_option_b weight_shares)
  then
    emit (WeightsTable weight_option_a weight_option_b weight_shares) ;;;
    emit (Print "") ;;;
    if is_singular then emit (Print msg_first_feasible) else ret tt
  else emit (Print msg_cannot_solve).

(** [HedgeController.update_runtime_choices] *)
Definition update_runtime_choices : M unit :=
  c <- get ;;
  if negb (bool_decide (options c = ∅)) && interactive c
  then modify (set_choices_rmv (Some ["Option A"; "Option B"]))
  else ret tt.

(** [float(x)] for the text or default of [-a]. *)
Definition float_of_amount (a : option string) : M Q :=
  match a with
  | None => ret (inject_Z 1000)
  | Some s =>
      match py_float s with
      | Some q => ret q
      | None => raise ValueError
      end
  end.

(** [float(self.strike)] *)
Definition float_of_pyval (v : pyval) : M Q :=
  match v with
  | PyFloat q => ret q
  | PyStr s =>
      match py_float s with
      | Some q => ret q
      | None => raise ValueError
      end
  end.

(** The body that the two slot branches of [call_add] share: the leg is
    stored, its Greeks are computed and shown, and the three values are
    written under the same slot. *)
Definition store_leg (slot : string) (opt : Leg)
    (implied_volatility k t : Q) (sd : Z) : M unit :=
  options_setitem slot (Some opt) ;;;
  c <- get ;;
  r <- add_and_show_greeks (current_price c) implied_volatility k t sd ;;
  let '(delta, gamma, vega) := r in
  greeks_setitem slot "Delta" delta ;;;
  greeks_setitem slot "Gamma" gamma ;;;
  greeks_setitem slot "Vega" vega.

(** What [call_add] does once a leg is stored (the branch that refuses a
    third leg returns before it). *)
Definition finish_add (opt : Leg) (sg : Z) : M unit :=
  c <- get ;;
  emit (PositionsTable (positions_of (options c))) ;;;
  gA <- getitem (greeks c) "Option A" ;;
  (if contains gA "Delta"
   then gB <- getitem (greeks c) "Option B" ;;
        if contains gB "Delta"
        then show_calculated_hedge (amount c) (leg_type opt) (greeks c) sg
        else ret tt
   else ret tt) ;;;
  update_runtime_choices ;;;
  emit (Print "").

(** [HedgeController.call_add], from the parsed namespace on. *)
Definition call_add (ns_parser : option add_args) (delta_days : Z) : M unit :=
  match ns_parser with
  | Some ns =>
      c <- get ;;
      gP <- getitem (greeks c) "Portfolio" ;;
      if negb (truthy gP) then emit (Print msg_pick_first)
      else
        let opt_type := if put ns then "Put" else "Call" in
        let sg := if short ns then -1 else 1 in
        let options_list := if put ns then puts c else calls c in
        if (identifier ns <? length options_list)%nat then
          row <- list_getitem options_list (identifier ns) ;;
          let k := row_strike row in
          let implied_volatility := row_iv row in
          let cost := row_last row in
          let opt := {| leg_type := opt_type; leg_sign := sg; leg_strike := k;
                        leg_implied_volatility := implied_volatility;
                        leg_cost := cost |} in
          emit (PrintCost cost) ;;;
          let sd := if String.eqb opt_type "Call" then 1 else -1 in
          let t := years_to_expiry delta_days in
          gA <- getitem (greeks c) "Option A" ;;
          if negb (contains gA "Delta") then
            store_leg "Option A" opt implied_volatility k t sd ;;;
            finish_add opt sg
          else
            gB <- getitem (greeks c) "Option B" ;;
            if negb (contains gB "Delta") then
              store_leg "Option B" opt implied_volatility k t sd ;;;
              finish_add opt sg
            else emit (Print msg_two_options)
        else ret tt
  | None => emit (Print msg_valid_index)
  end.

(** [not self.options["Option A"] and not self.options["Option B"]] *)
Definition no_leg : M bool :=
  c <- get ;;
  a <- getitem (options c) "Option A" ;;
  if leg_truthy a then ret false
  else b <- getitem (options c) "Option B" ;; ret (negb (leg_truthy b)).

(** [self.options["Option A"] or self.options["Option B"]] *)
Definition some_leg : M bool :=
  c <- get ;;
  a <- getitem (options c) "Option A" ;;
  if leg_truthy a then ret true
  else b <- getitem (options c) "Option B" ;; ret (leg_truthy b).

(** [HedgeController.call_rmv], from the parsed namespace on. *)
Definition call_rmv (ns_parser : option rmv_args) : M unit :=
  match ns_parser with
  | Some ns =>
      e <- no_leg ;;
      if e then emit (Print msg_add_options)
      else
        (if all ns then
           modify (set_options {[ "Option A" := None; "Option B" := None ]})
         else
           match option_words ns with
           | None => raise TypeError
           | Some ws =>
               let option_name := String.concat " " ws in
               c <- get ;;
               if contains (options c) option_name then
                 options_setitem option_name None ;;;
                 modify (fun c => set_greeks (<[option_name := ∅]> (greeks c)) c) ;;;
                 update_runtime_choices
               else emit (Print (msg_not_an_option option_name))
           end) ;;;
        s <- some_leg ;;
        (if s then c <- get ;; emit (PositionsTable (positions_of (options c)))
         else ret tt) ;;;
        emit (Print "")
  | None => emit (Print msg_nothing_selected)
  end.

(** [HedgeController.call_pick], from the parsed namespace on. *)
Definition call_pick (ns_parser : option pick_args) (delta_days : Z) : M unit :=
  match ns_parser with
  | Some ns =>
      match pick ns with
      | [strike_type; underlying_type; side_type] =>
          let amount_text :=
            match amount_arg ns with Some a => a | None => "1000" end in
          modify (set_underlying_asset_position
                    (underlying_type ++ " " ++ side_type ++ " " ++ amount_text
                     ++ " @ " ++ strike_type)) ;;;
          modify (set_underlying
                    (if String.eqb underlying_type "Short" then -1 else 1)) ;;;
          modify (set_side
                    (if String.eqb side_type "Put" then "Put" else "Call")) ;;;
          let sd := if String.eqb side_type "Put" then -1 else 1 in
          a <- float_of_amount (amount_arg ns) ;;
          modify (set_amount a) ;;;
          modify (set_strike (PyStr strike_type)) ;;;
          let t := years_to_expiry delta_days in
          c <- get ;;
          let column := if sd =? -1 then puts c else calls c in
          let index := find_strike column (strike c) 0 in
          row <- iloc column index ;;
          let implied_volatility := row_iv row in
          k <- float_of_pyval (strike c) ;;
          r <- hedge_model_add_hedge_option
                 (current_price c) implied_volatility k t sd ;;
          let '(delta, gamma, vega) := r in
          greeks_setitem "Portfolio" "Delta" delta ;;;
          greeks_setitem "Portfolio" "Gamma" gamma ;;;
          greeks_setitem "Portfolio" "Vega" vega
      | _ => raise ValueError
      end
  | None => ret tt
  end.

(** [HedgeController.call_sop]; the parser takes no argument, so the
    namespace is only present or absent. *)
Definition call_sop (ns_parser : option unit) : M unit :=
  match ns_parser with
  | Some _ =>
      e <- no_leg ;;
      if e then emit (Print msg_add_options)
      else
        c <- get ;;
        emit (PositionsTable (positions_of (options c))) ;;;
        gA <- getitem (greeks c) "Option A" ;;
        (if contains gA "Delta"
         then gB <- getitem (greeks c) "Option B" ;;
              if contains gB "Delta"
              then a <- getitem (options c) "Option A" ;;
                   ty <- leg_getitem a "type" leg_type ;;
                   a' <- getitem (options c) "Option A" ;;
                   sg <- leg_getitem a' "sign" leg_sign ;;
                   show_calculated_hedge (amount c) ty (greeks c) sg
              else ret tt
         else ret tt) ;;;
        emit (Print "")
  | None => ret tt
  end.

(** [HedgeController.call_plot] *)
Definition call_plot (ns_parser : option unit) : M unit :=
  match ns_parser with
  | Some _ =>
      c <- get ;;
      a <- getitem (options c) "Option A" ;;
      b <- getitem (options c) "Option B" ;;
      emit (PlotPayoff (current_price c) [a; b] (underlying c) (ticker c)
              (expiration c))
  | None => ret tt
  end.

(** ** Sessions *)

Inductive command :=
| Add (ns_parser : option add_args) (delta_days : Z)
| Rmv (ns_parser : option rmv_args)
| Pick (ns_parser : option pick_args) (delta_days : Z)
| Sop (ns_parser : option unit)
| Plot (ns_parser : option unit).

Definition run (cmd : command) : M unit :=
  match cmd with
  | Add ns d => call_add ns d
  | Rmv ns => call_rmv ns
  | Pick ns d => call_pick ns d
  | Sop ns => call_sop ns
  | Plot ns => call_plot ns
  end.

(** The controller after a command, whether it returned or raised: the
    menu goes on with the same object. *)
Definition step (c : HedgeController) (cmd : command) : HedgeController :=
  final (run cmd c).

Definition session (c : HedgeController) (cmds : list command) : HedgeController :=
  fold_left step cmds c.

(** The controllers a user can get to: built by the constructor, then
    driven by commands. *)
Definition reachable (c : HedgeController) : Prop :=
  exists tk exp chain_calls chain_puts price inter c0 cmds,
    init tk exp chain_calls chain_puts price inter = Some c0 ∧
    session c0 cmds = c.

End Commands.

(** ** A sample session

    Stand-ins for the collaborators, used to run the commands on concrete
    input: a calculator that echoes its inputs (Delta is the volatility
    with the sign of the side, Gamma the strike, Vega the time), a solver
    with a fixed answer, and [float] on unsigned decimal integers. *)

Definition sample_add_hedge_option (price iv k t : Q) (sd : Z) : Q * Q * Q :=
  ((inject_Z sd * iv)%Q, k, t).

Definition sample_calc_hedge (amt : Q) (sd : string)
    (g : gmap string (gmap string Q)) (sg : Z) : float * float * float * bool :=
  (1%float, 1%float, 1%float, false).


Fixpoint digits_value (s : string) (acc : Z) : option Z :=
  match s with
  | EmptyString => Some acc
  | String ch rest =>
      let n := Z.of_nat (Ascii.nat_of_ascii ch) in
      if (48 <=? n) && (n <=? 57) then digits_value rest (10 * acc + (n - 48))
      else None
  end.

Definition float_of_digits (s : string) : option Q :=
  match s with
  | EmptyString => None
  | _ => option_map inject_Z (digits_value s 0)
  end.

(** Two calls (strikes 100 and 105) and one put (strike 100). *)
Definition sample_calls : list chain_row :=
  [(100 # 1, 1 # 5, 5 # 1)%Q; (105 # 1, 3 # 10, 4 # 1)%Q].
Definition sample_puts : list chain_row :=
  [(100 # 1, 1 # 4, 6 # 1)%Q].

Definition sample_controller : HedgeController :=
  {| underlying_asset_position := "";
     calls := sample_calls; puts := sample_puts;
     ticker := "TSLA"; current_price := (102 # 1)%Q;
     expiration := "2030-01-18";
     options := {[ "Portfolio" := None; "Option A" := None;
                   "Option B" := None ]};
     underlying := 0; side := ""; amount := 0%Q; strike := PyFloat 0%Q;
     greeks := {[ "Portfolio" := ∅; "Option A" := ∅; "Option B" := ∅ ]};
     interactive := true; choices_rmv := None |}.

Definition sample_session : list command -> HedgeController :=
  session sample_add_hedge_option sample_calc_hedge float_of_digits
    sample_controller.

(** Command lines, parsed. *)
Definition args_pick_100 : pick_args :=
  {| pick := ["100"; "Long"; "Call"]; amount_arg := None |}.
Definition args_pick_999 : pick_args :=
  {| pick := ["999"; "Long"; "Call"]; amount_arg := None |}.
Definition args_call_long : add_args :=
  {| put := false; short := false; identifier := 0%nat |}.
Definition args_put_short : add_args :=
  {| put := true; short := true; identifier := 0%nat |}.
(** [add --put -i 1]: the identifier is checked against the calls, which
    has two rows, and then indexes the puts, which has one. *)
Definition args_put_beyond : add_args :=
  {| put := true; short := false; identifier := 1%nat |}.

Definition pick_100_long_call : command := Pick (Some args_pick_100) 10.
Definition add_call_long : command := Add (Some args_call_long) 10.
Definition add_put_short : command := Add (Some args_put_short) 10.
Definition rmv_all : command :=
  Rmv (Some {| option_words := None; all := true |}).
Definition rmv_option_a : command :=
  Rmv (Some {| option_words := Some ["Option"; "A"]; all := false |}).

(** The commands over the stand-ins. *)
Definition sample_call_add : option add_args -> Z -> M unit :=
  call_add sample_add_hedge_option sample_calc_hedge.
Definition sample_call_pick : option pick_args -> Z -> M unit :=
  call_pick sample_add_hedge_option float_of_digits.
Definition sample_call_sop : option unit -> M unit :=
  call_sop sample_calc_hedge.
Definition sample_reachable : HedgeController -> Prop :=
  reachable sample_add_hedge_option sample_calc_hedge float_of_digits.

(** The same controller in a session without prompt toolkit. *)
Definition sample_controller_offline : HedgeController :=
  {| underlying_asset_position := "";
     calls := sample_calls; puts := sample_puts;
     ticker := "TSLA"; current_price := (102 # 1)%Q;
     expiration := "2030-01-18";
     options := {[ "Portfolio" := None; "Option A" := None;
                   "Option B" := None ]};
     underlying := 0; side := ""; amount := 0%Q; strike := PyFloat 0%Q;
     greeks := {[ "Portfolio" := ∅; "Option A" := ∅; "Option B" := ∅ ]};
     interactive := false; choices_rmv := None |}.

(** More command lines, parsed. *)
Definition args_pick_abc : pick_args :=
  {| pick := ["abc"; "Long"; "Call"]; amount_arg := None |}.
Definition args_pick_short : pick_args :=
  {| pick := ["100"; "Short"; "Call"]; amount_arg := None |}.
Definition args_pick_word : pick_args :=
  {| pick := ["100"]; amount_arg := None |}.
Definition args_rmv_option_a : rmv_args :=
  {| option_words := Some ["Option"; "A"]; all := false |}.
Definition args_rmv_option_c : rmv_args :=
  {| option_words := Some ["Option"; "C"]; all := false |}.
Definition args_rmv_nothing : rmv_args :=
  {| option_words := None; all := false |}.

(** ** Relations between the controller before and after a command *)

(** [m] takes every controller to an [R]-related one, whether it returns
    or raises. *)
Definition preserves (R : relation HedgeController) {A} (m : M A) : Prop :=
  forall c, R c (final (m c)).

(** A property that holds afterwards when it held before. *)
Definition keeps (P : HedgeController -> Prop) : relation HedgeController :=
  fun c c' => P c -> P c'.

(** What [call_pick] leaves alone: the legs, the chain, and every Greeks
    entry but the Portfolio one, which stays in the dictionary. *)
Definition pick_frame (c c' : HedgeController) : Prop :=
  options c' = options c ∧
  calls c' = calls c ∧
  puts c' = puts c ∧
  (forall slot, slot ≠ "Portfolio" -> greeks c' !! slot = greeks c !! slot) ∧
  (is_Some (greeks c !! "Portfolio") -> is_Some (greeks c' !! "Portfolio")).

(** Every event of the trace of [m] satisfies [P], whether [m] returns or
    raises. *)
Definition emits (P : event -> Prop) {A} (m : M A) : Prop :=
  forall c, Forall P (trace (m c)).

(** A call of the Greeks calculator is made with time [t]; nothing is said
    of the other events. *)
Definition calculator_time_is (t : Q) (e : event) : Prop :=
  match e with
  | GreeksCall _ _ _ t' _ => t' = t
  | _ => True
  end.

(** The keys are there and every stored leg has its Delta. *)
Definition well_formed (c : HedgeController) : Prop :=
  has_keys c ∧ legs_have_greeks c.

(** ** The rest of the menu *)

(** ["Delta" in self.greeks["Option A"] or "Delta" in self.greeks["Option B"]] *)
Definition delta_in_either : M bool :=
  c <- get ;;
  gA <- getitem (greeks c) "Option A" ;;
  if contains gA "Delta" then ret true
  else gB <- getitem (greeks c) "Option B" ;; ret (contains gB "Delta").

(** [f"{s or None}"] *)
Definition or_none (s : string) : string :=
  if String.eqb s "" then "None" else s.

(** The f-string of [print_help], given the four marks. *)
Definition help_text (c : HedgeController)
    (has_portfolio_start has_portfolio_end has_option_start has_option_end
       : string) : string :=
  nl
  ++ "[param]Ticker: [/param]" ++ or_none (ticker c) ++ nl
  ++ "[param]Expiry: [/param]" ++ or_none (expiration c) ++ nl
  ++ "[cmds]" ++ nl
  ++ "    pick          pick the underlying asset position" ++ nl
  ++ "[/cmds][param]" ++ nl
  ++ "Underlying Asset Position: [/param]" ++ underlying_asset_position c ++ nl
  ++ "[cmds]" ++ nl
  ++ "    list          show the available strike prices for calls and puts"
  ++ has_portfolio_start ++ nl
  ++ "    add           add an option to the list of options"
  ++ has_portfolio_end ++ has_option_start ++ nl
  ++ "    rmv           remove an option from the list of options" ++ nl
  ++ "    sop           show selected options and neutral portfolio weights" ++ nl
  ++ "    plot          show the option payoff diagram[/cmds]"
  ++ has_option_end ++ nl
  ++ "        ".

(** [HedgeController.print_help]; the text goes to [console.print] under
    the fixed menu title. *)
Definition print_help : M unit :=
  c <- get ;;
  g1 <- getitem (greeks c) "Portfolio" ;;
  let has_portfolio_start := if contains g1 "Delta" then "" else "[unvl]" in
  g2 <- getitem (greeks c) "Portfolio" ;;
  let has_portfolio_end := if contains g2 "Delta" then "" else "[/unvl]" in
  e1 <- delta_in_either ;;
  let has_option_start := if e1 : bool then "" else "[unvl]" in
  e2 <- delta_in_either ;;
  let has_option_end := if e2 : bool then "" else "[/unvl]" in
  emit (Print (help_text c has_portfolio_start has_portfolio_end
                 has_option_start has_option_end)).

(** [HedgeController.custom_reset] *)
Definition custom_reset (c : HedgeController) : list string :=
  if negb (String.eqb (ticker c) "") then
    if negb (String.eqb (expiration c) "") then
      ["stocks"; "load " ++ ticker c; "options";
       "exp -d " ++ expiration c; "hedge"]
    else ["stocks"; "load " ++ ticker c; "options"; "hedge"]
  else [].




(** ** More relations and shapes *)

(** What no command writes: the chain, the ticker, the spot price, the
    expiry and the interactive flag. *)
Definition market_frame (c c' : HedgeController) : Prop :=
  calls c' = calls c ∧ puts c' = puts c ∧ ticker c' = ticker c ∧
  current_price c' = current_price c ∧ expiration c' = expiration c ∧
  interactive c' = interactive c.

(** A Greeks dictionary is empty or holds exactly Delta, Gamma and Vega. *)
Definition greeks_shape (g : gmap string Q) : Prop :=
  g = ∅ ∨ dom g = ({[ "Delta"; "Gamma"; "Vega" ]} : gset string).

Definition greeks_shaped (c : HedgeController) : Prop :=
  forall slot g, greeks c !! slot = Some g -> greeks_shape g.

(** The Portfolio key of [self.options] never holds a leg. *)
Definition portfolio_leg_empty (c : HedgeController) : Prop :=
  forall l, options c !! "Portfolio" ≠ Some (Some l).

(** A session without prompt toolkit has no completions for [rmv]. *)
Definition no_choices_offline (c : HedgeController) : Prop :=
  interactive c = false -> choices_rmv c = None.

(** The three writes of a Greeks triple. *)
Definition write_greeks (r : Q * Q * Q) (g : gmap string Q) : gmap string Q :=
  <["Vega" := snd r]> (<["Gamma" := snd (fst r)]> (<["Delta" := fst (fst r)]> g)).

(** The controller after a [pick] that got through: the position text,
    the signs, the amount, the strike text and the Portfolio Greeks. *)
Definition picked (st ut sdt : string) (amount_text : string) (a : Q)
    (r : Q * Q * Q) (g : gmap string Q) (c : HedgeController) : HedgeController :=
  set_greeks (<["Portfolio" := write_greeks r g]> (greeks c))
    (set_strike (PyStr st)
       (set_amount a
          (set_side (if String.eqb sdt "Put" then "Put" else "Call")
             (set_underlying (if String.eqb ut "Short" then -1 else 1)
                (set_underlying_asset_position
                   (ut ++ " " ++ sdt ++ " " ++ amount_text ++ " @ " ++ st)
                   c))))).

(** What [pick] prints and keeps of [-a]: the text as typed, or the
    default 1000. *)
Definition amount_text (a : option string) : string :=
  match a with Some s => s | None => "1000" end.

(** [float(amount_type)] where it does not raise. *)
Definition amount_value (py_float : string -> option Q) (a : option string)
    : option Q :=
  match a with
  | Some s => py_float s
  | None => Some (inject_Z 1000)
  end.

(** The side of the chain that [pick] searches. *)
Definition pick_column (sdt : string) (c : HedgeController) : list chain_row :=
  if String.eqb sdt "Put" then puts c else calls c.

(** What [pick] leaves alone: everything but the position text, the two
    signs, the amount, the strike text and the Portfolio Greeks. *)
Definition beside_pick (c c' : HedgeController) : Prop :=
  market_frame c c' ∧ options c' = options c ∧
  choices_rmv c' = choices_rmv c ∧
  (forall slot, slot ≠ "Portfolio" -> greeks c' !! slot = greeks c !! slot).

(** * Properties *)

Local Arguments lookup : simpl never.
Local Arguments insert : simpl never.
Local Arguments nth_error : simpl never.
Local Arguments Nat.ltb : simpl never.
Local Arguments positions_of : simpl never.
Local Arguments years_to_expiry : simpl never.
Local Arguments truthy : simpl never.
Local Arguments contains : simpl never.
Local Arguments String.eqb : simpl nomatch.
Local Arguments show_calculated_hedge : simpl never.
Local Arguments update_runtime_choices : simpl never.
Local Arguments store_leg : simpl never.
Local Arguments finish_add : simpl never.

Ltac unfold_m :=
  unfold greeks_setitem, options_setitem;
  unfold getitem, leg_getitem, list_getitem;
  unfold bind, ret, get, modify, emit, raise.

Ltac look :=
  repeat (rewrite lookup_insert_eq || rewrite lookup_insert_ne by done).

(** Closes a goal from a membership [E] in a list that does not hold the
    element. *)
Ltac in_absurd E :=
  exfalso; cbn in E;
  repeat (destruct E as [E|E];
          [try discriminate E; try (vm_compute in E; discriminate E)|]);
  destruct E.

(** Case analysis on the innermost scrutinee of the goal. *)
Ltac case_step :=
  match goal with
  | |- context [match ?x with _ => _ end] =>
      lazymatch x with
      | context [match _ with _ => _ end] => fail
      | _ => destruct x eqn:?
      end
  end.

(** ** Relations kept by a command, whatever its outcome *)

Section Frames.

Context (R : relation HedgeController) `{!PreOrder R}.

Lemma preserves_ret {A} (a : A) : preserves R (ret a).
Proof. intros c. reflexivity. Qed.

Lemma preserves_get : preserves R get.
Proof. intros c. reflexivity. Qed.

Lemma preserves_emit e : preserves R (emit e).
Proof. intros c. reflexivity. Qed.

Lemma preserves_raise {A} e : preserves R (@raise A e).
Proof. intros c. reflexivity. Qed.

Lemma preserves_modify f : (forall c, R c (f c)) -> preserves R (modify f).
Proof. intros H c. apply H. Qed.

Lemma preserves_bind {A B} (m : M A) (k : A -> M B) :
  preserves R m -> (forall a, preserves R (k a)) -> preserves R (bind m k).
Proof.
  intros Hm Hk c. unfold bind.
  specialize (Hm c). destruct (m c) as [a c1 o1|e c1 o1]; cbn in *; [|done].
  specialize (Hk a c1). destruct (k a c1); cbn in *; by etrans.
Qed.

Lemma preserves_getitem {V} (d : gmap string V) k : preserves R (getitem d k).
Proof.
  unfold getitem. destruct (d !! k); [apply preserves_ret | apply preserves_raise].
Qed.

Lemma preserves_leg_getitem {A} l key (f : Leg -> A) :
  preserves R (leg_getitem l key f).
Proof.
  unfold leg_getitem. destruct l; [apply preserves_ret | apply preserves_raise].
Qed.

Lemma preserves_list_getitem {A} (l : list A) i : preserves R (list_getitem l i).
Proof.
  unfold list_getitem.
  destruct (nth_error l i); [apply preserves_ret | apply preserves_raise].
Qed.

Lemma preserves_iloc {A} (l : list A) i : preserves R (iloc l i).
Proof.
  unfold iloc. destruct (_ && _); [|apply preserves_raise].
  destruct (nth_error _ _); [apply preserves_ret | apply preserves_raise].
Qed.

Lemma preserves_no_leg : preserves R no_leg.
Proof.
  unfold no_leg. apply preserves_bind; [apply preserves_get | intros c0].
  apply preserves_bind; [apply preserves_getitem | intros a].
  destruct (leg_truthy a); [apply preserves_ret|].
  apply preserves_bind; [apply preserves_getitem | intros b; apply preserves_ret].
Qed.

Lemma preserves_some_leg : preserves R some_leg.
Proof.
  unfold some_leg. apply preserves_bind; [apply preserves_get | intros c0].
  apply preserves_bind; [apply preserves_getitem | intros a].
  destruct (leg_truthy a); [apply preserves_ret|].
  apply preserves_bind; [apply preserves_getitem | intros b; apply preserves_ret].
Qed.

End Frames.

(** Splits a command along its binds and branches, leaving the writes. *)
Ltac frame_step :=
  first
    [ apply preserves_ret | apply preserves_get | apply preserves_emit
    | apply preserves_raise | apply preserves_getitem
    | apply preserves_leg_getitem | apply preserves_list_getitem
    | apply preserves_iloc | apply preserves_no_leg | apply preserves_some_leg
    | apply preserves_bind
    | match goal with
      | |- forall _, preserves _ _ => intros ?
      | |- preserves _ (match ?x with _ => _ end) => destruct x
      end ]; try assumption; try apply _.
Ltac frame := repeat frame_step.

(** ** Properties of every event a command emits *)

Section Traces.

Context (P : event -> Prop).

Lemma emits_ret {A} (a : A) : emits P (ret a).
Proof. intros c. constructor. Qed.

Lemma emits_get : emits P get.
Proof. intros c. constructor. Qed.

Lemma emits_modify f : emits P (modify f).
Proof. intros c. constructor. Qed.

Lemma emits_raise {A} e : emits P (@raise A e).
Proof. intros c. constructor. Qed.

Lemma emits_emit e : P e -> emits P (emit e).
Proof. intros H c. by repeat constructor. Qed.

Lemma emits_bind {A B} (m : M A) (k : A -> M B) :
  emits P m -> (forall a, emits P (k a)) -> emits P (bind m k).
Proof.
  intros Hm Hk c. unfold bind.
  specialize (Hm c). destruct (m c) as [a c1 o1|e c1 o1]; cbn in *; [|done].
  specialize (Hk a c1). destruct (k a c1); cbn in *; by apply Forall_app.
Qed.

End Traces.

Ltac emits_step :=
  first
    [ apply emits_ret | apply emits_get | apply emits_modify
    | apply emits_raise | apply emits_emit; exact I
    | apply emits_bind
    | match goal with
      | |- forall _, emits _ _ => intros ?
      | |- emits _ (match ?x with _ => _ end) => destruct x
      end ].

Global Instance keeps_preorder P : PreOrder (keeps P).
Proof. split; unfold keeps; [intros c; tauto | intros c1 c2 c3; tauto]. Qed.

Global Instance pick_frame_preorder : PreOrder pick_frame.
Proof.
  split.
  - intros c. unfold pick_frame. tauto.
  - intros c1 c2 c3 (Ho & Hc & Hp & Hg & Hk) (Ho' & Hc' & Hp' & Hg' & Hk').
    unfold pick_frame. repeat split; try congruence; [|tauto].
    intros slot Hs. rewrite Hg', Hg; done.
Qed.

Section Properties.

Local Set Default Proof Using "Type".

Variable add_hedge_option : Q -> Q -> Q -> Q -> Z -> Q * Q * Q.
Variable calc_hedge :
  Q -> string -> gmap string (gmap string Q) -> Z ->
  float * float * float * bool.
Variable py_float : string -> option Q.

(** ** How each piece runs *)

(** The view only reports: it returns and leaves the controller alone. *)
Lemma show_calculated_hedge_run amt sd g sg c :
  show_calculated_hedge calc_hedge amt sd g sg c =
  Ret tt c (trace (show_calculated_hedge calc_hedge amt sd g sg c)).
Proof.
  unfold show_calculated_hedge. unfold_m.
  destruct (calc_hedge amt sd g sg) as [[[wa wb] ws] sing].
  destruct (float_truthy _); [destruct sing|]; reflexivity.
Qed.

Lemma show_calculated_hedge_sides amt sd g sg c :
  hedge_sides (trace (show_calculated_hedge calc_hedge amt sd g sg c)) = [(sd, sg)].
Proof.
  unfold show_calculated_hedge. unfold_m.
  destruct (calc_hedge amt sd g sg) as [[[wa wb] ws] sing].
  destruct (float_truthy _); [destruct sing|]; reflexivity.
Qed.

Lemma show_calculated_hedge_greeks amt sd g sg c :
  hedge_greeks (trace (show_calculated_hedge calc_hedge amt sd g sg c)) = [g].
Proof.
  unfold show_calculated_hedge. unfold_m.
  destruct (calc_hedge amt sd g sg) as [[[wa wb] ws] sing].
  destruct (float_truthy _); [destruct sing|]; reflexivity.
Qed.

Lemma show_calculated_hedge_no_calculator amt sd g sg c :
  calculator_calls (trace (show_calculated_hedge calc_hedge amt sd g sg c)) = [].
Proof.
  unfold show_calculated_hedge. unfold_m.
  destruct (calc_hedge amt sd g sg) as [[[wa wb] ws] sing].
  destruct (float_truthy _); [destruct sing|]; reflexivity.
Qed.

Lemma update_runtime_choices_run c :
  update_runtime_choices c = Ret tt (refreshed c) [].
Proof.
  unfold update_runtime_choices, refreshed. unfold_m.
  destruct (_ && _); reflexivity.
Qed.

Lemma store_leg_run slot opt iv k t sd c g :
  greeks c !! slot = Some g ->
  store_leg add_hedge_option slot opt iv k t sd c =
  let r := add_hedge_option (current_price c) iv k t sd in
  Ret tt (with_leg slot opt g r c)
    [GreeksCall (current_price c) iv k t sd;
     GreeksTable (fst (fst r)) (snd (fst r)) (snd r) iv k; Print ""].
Proof.
  intros H.
  unfold store_leg, add_and_show_greeks, hedge_model_add_hedge_option.
  unfold_m. cbn.
  destruct (add_hedge_option _ _ _ _ _) as [[dl gm] vg]. cbn.
  rewrite H. cbn. look. cbn. look. cbn.
  unfold with_leg, set_greeks; cbn.
  rewrite !insert_insert_eq. reflexivity.
Qed.

Lemma finish_add_run opt sg c gA gB :
  greeks c !! "Option A" = Some gA ->
  greeks c !! "Option B" = Some gB ->
  finish_add calc_hedge opt sg c =
  Ret tt (refreshed c)
    (PositionsTable (positions_of (options c))
     :: (if delta_in c "Option A" && delta_in c "Option B"
         then trace (show_calculated_hedge calc_hedge (amount c) (leg_type opt)
                       (greeks c) sg c)
         else [])
     ++ [Print ""]).
Proof.
  intros HA HB. unfold finish_add, delta_in. unfold_m. rewrite !HA, !HB. cbn.
  destruct (contains gA "Delta"); cbn;
    [destruct (contains gB "Delta"); cbn;
       [rewrite show_calculated_hedge_run; cbn|]|];
    rewrite update_runtime_choices_run; cbn; rewrite ?app_nil_r;
    reflexivity.
Qed.

Lemma with_leg_greeks_same slot opt g r c :
  greeks (with_leg slot opt g r c) !! slot =
  Some (<["Vega" := snd r]>
          (<["Gamma" := snd (fst r)]> (<["Delta" := fst (fst r)]> g))).
Proof. unfold with_leg. cbn. by look. Qed.

Lemma with_leg_greeks_other slot slot' opt g r c :
  slot ≠ slot' ->
  greeks (with_leg slot opt g r c) !! slot' = greeks c !! slot'.
Proof. intros H. unfold with_leg. cbn. by look. Qed.

Lemma with_leg_options_same slot opt g r c :
  options (with_leg slot opt g r c) !! slot = Some (Some opt).
Proof. unfold with_leg. cbn. by look. Qed.

Lemma with_leg_options_other slot slot' opt g r c :
  slot ≠ slot' ->
  options (with_leg slot opt g r c) !! slot' = options c !! slot'.
Proof. intros H. unfold with_leg. cbn. by look. Qed.

Lemma with_leg_delta_in slot opt g r c :
  delta_in (with_leg slot opt g r c) slot = true.
Proof.
  unfold delta_in. rewrite with_leg_greeks_same. unfold contains.
  rewrite lookup_insert_ne, lookup_insert_ne, lookup_insert_eq by done. done.
Qed.

Lemma refreshed_greeks c : greeks (refreshed c) = greeks c.
Proof. unfold refreshed. by destruct (_ && _). Qed.

Lemma refreshed_options c : options (refreshed c) = options c.
Proof. unfold refreshed. by destruct (_ && _). Qed.

(** An [add] that reaches the slot test: the leg goes to the first slot
    without a Delta, or the command stops at the two-options message. *)
Lemma call_add_run ns d c gP gA gB row :
  greeks c !! "Portfolio" = Some gP -> truthy gP = true ->
  nth_error (options_list ns c) (identifier ns) = Some row ->
  greeks c !! "Option A" = Some gA ->
  greeks c !! "Option B" = Some gB ->
  call_add add_hedge_option calc_hedge (Some ns) d c =
  let opt := leg_of ns row in
  let sd := if put ns then -1 else 1 in
  let r := add_hedge_option (current_price c) (row_iv row) (row_strike row)
             (years_to_expiry d) sd in
  match free_slot c with
  | Some slot =>
      let c1 := with_leg slot opt (default ∅ (greeks c !! slot)) r c in
      Ret tt (refreshed c1)
        (PrintCost (row_last row)
         :: GreeksCall (current_price c) (row_iv row) (row_strike row)
              (years_to_expiry d) sd
         :: GreeksTable (fst (fst r)) (snd (fst r)) (snd r) (row_iv row)
              (row_strike row)
         :: Print ""
         :: PositionsTable (positions_of (options c1))
         :: (if delta_in c1 "Option A" && delta_in c1 "Option B"
             then trace (show_calculated_hedge calc_hedge (amount c1)
                           (leg_type opt) (greeks c1) (leg_sign opt) c1)
             else [])
         ++ [Print ""])
  | None => Ret tt c [PrintCost (row_last row); Print msg_two_options]
  end.
Proof.
  intros HP HPt Hrow HA HB.
  assert (Hlt : (identifier ns <? length (options_list ns c))%nat = true).
  { apply Nat.ltb_lt, nth_error_Some. by rewrite Hrow. }
  assert (HdA : delta_in c "Option A" = contains gA "Delta")
    by (unfold delta_in; by rewrite HA).
  assert (HdB : delta_in c "Option B" = contains gB "Delta")
    by (unfold delta_in; by rewrite HB).
  assert (Hsd : (if String.eqb (if put ns then "Put" else "Call") "Call"
                 then 1 else -1) = if put ns then -1 else 1)
    by (by destruct (put ns)).
  unfold call_add, free_slot, options_list in *. rewrite HdA, HdB.
  unfold_m. rewrite HP. cbn. rewrite HPt, Hlt. cbn. rewrite Hrow. cbn.
  rewrite !HA. cbn. rewrite Hsd.
  destruct (contains gA "Delta") eqn:HAd; cbn.
  - rewrite !HB. cbn. destruct (contains gB "Delta") eqn:HBd; cbn; [done|].
    rewrite (store_leg_run _ _ _ _ _ _ _ gB) by done. cbn.
    erewrite finish_add_run;
      [ | by rewrite with_leg_greeks_other | by rewrite with_leg_greeks_same ].
    rewrite HB. reflexivity.
  - rewrite (store_leg_run _ _ _ _ _ _ _ gA) by done. cbn.
    erewrite finish_add_run;
      [ | by rewrite with_leg_greeks_same | by rewrite with_leg_greeks_other ].
    rewrite HA. reflexivity.
Qed.

(** ** Commands that only read *)

Lemma call_sop_final ns c : final (call_sop calc_hedge ns c) = c.
Proof.
  symmetry. revert c. change (preserves eq (call_sop calc_hedge ns)).
  unfold call_sop, show_calculated_hedge. frame.
Qed.

Lemma call_plot_final ns c : final (call_plot ns c) = c.
Proof.
  symmetry. revert c. change (preserves eq (call_plot ns)).
  unfold call_plot. frame.
Qed.

(** ** What [pick] leaves alone *)

Lemma greeks_setitem_pick_frame key v :
  preserves pick_frame (greeks_setitem "Portfolio" key v).
Proof.
  intros c. unfold_m. destruct (greeks c !! "Portfolio") as [g|] eqn:Hg; cbn.
  - unfold pick_frame; cbn. repeat split; try done.
    + intros slot Hs. by look.
    + intros _. look. by eexists.
  - reflexivity.
Qed.

Lemma call_pick_frame ns d :
  preserves pick_frame (call_pick add_hedge_option py_float ns d).
Proof.
  unfold call_pick, float_of_amount, float_of_pyval.
  repeat first
    [ apply greeks_setitem_pick_frame
    | apply preserves_modify; intros c; unfold pick_frame; cbn; by split_and!
    | frame_step ].
Qed.

(** A [pick] that returns has called the calculator once, on the spot
    price, the time to expiry and the side read from the command line, and
    has written the three results under Portfolio. *)
Lemma call_pick_overwrites c args d :
  let o := call_pick add_hedge_option py_float (Some args) d c in
  returns o = true ->
  exists st ut sdt iv k g,
    pick args = [st; ut; sdt] ∧ py_float st = Some k ∧
    let sd := if String.eqb sdt "Put" then -1 else 1 in
    let r := add_hedge_option (current_price c) iv k (years_to_expiry d) sd in
    calculator_calls (trace o)
      = [(current_price c, iv, k, years_to_expiry d, sd)] ∧
    greeks (final o) !! "Portfolio" = Some g ∧
    g !! "Delta" = Some (fst (fst r)) ∧
    g !! "Gamma" = Some (snd (fst r)) ∧
    g !! "Vega" = Some (snd r).
Proof.
  cbv zeta. unfold call_pick.
  destruct (pick args) as [|st [|ut [|sdt [|]]]]; try discriminate.
  unfold float_of_amount, float_of_pyval, hedge_model_add_hedge_option, iloc.
  unfold_m. cbn.
  repeat (case_step; cbn; look; try discriminate).
  all: intros _; exists st, ut, sdt; do 3 eexists; cbn.
  all: match goal with
       | H : String.eqb _ "Put" = _ |- _ => rewrite H
       end.
  all: split; [reflexivity|]; split; [eassumption|].
  all: split; [reflexivity|]; split; [look; reflexivity|].
  all: match goal with
       | H : add_hedge_option _ _ _ _ _ = _ |- _ => rewrite H
       end; cbn; look; done.
Qed.

(** ** The report of the solver *)


(** ** The time handed to the calculator *)

Lemma years_to_expiry_sign d :
  (0 <= d + 1 -> (0 < years_to_expiry d)%Q) ∧
  (d + 1 < 0 -> (years_to_expiry d < 0)%Q) ∧
  (d + 1 = 0 -> years_to_expiry d = ((1 # 100) / 365)%Q) ∧
  (d + 1 ≠ 0 -> years_to_expiry d = (inject_Z (d + 1) / 365)%Q).
Proof.
  unfold years_to_expiry, days_to_expiry.
  destruct (Qeq_bool (inject_Z (d + 1)) 0) eqn:E.
  - apply Qeq_bool_iff in E. unfold Qeq in E. cbn in E.
    assert (d + 1 = 0) by lia.
    split_and!; intros; try lia; try done.
  - assert (d + 1 ≠ 0).
    { intros H. rewrite H in E. discriminate E. }
    split_and!; intros; try lia; try done.
    + unfold Qlt, Qdiv, Qmult, Qinv, inject_Z. cbn. lia.
    + unfold Qlt, Qdiv, Qmult, Qinv, inject_Z. cbn. lia.
Qed.

Lemma calculator_times_of_events t out :
  Forall (calculator_time_is t) out ->
  Forall (fun t' => t' = t) (calculator_times out).
Proof.
  unfold calculator_times. induction 1 as [|e out He _ IH]; cbn; [constructor|].
  destruct e; cbn in *; try exact IH. by constructor.
Qed.

Lemma call_add_times ns d :
  emits (calculator_time_is (years_to_expiry d))
    (call_add add_hedge_option calc_hedge ns d).
Proof.
  unfold call_add, store_leg, finish_add, add_and_show_greeks,
    hedge_model_add_hedge_option, show_calculated_hedge,
    update_runtime_choices.
  unfold greeks_setitem, options_setitem, list_getitem, getitem.
  repeat first [ apply emits_emit; reflexivity | emits_step ].
Qed.

Lemma call_pick_times ns d :
  emits (calculator_time_is (years_to_expiry d))
    (call_pick add_hedge_option py_float ns d).
Proof.
  unfold call_pick, float_of_amount, float_of_pyval, iloc,
    hedge_model_add_hedge_option.
  unfold greeks_setitem, getitem.
  repeat first [ apply emits_emit; reflexivity | emits_step ].
Qed.

(** C3, as the code has it: the time handed to the Greeks calculator by
    [add] and by [pick] is the day count over 365, where a day count of
    exactly zero is replaced by 0.01.  It is strictly positive whenever the
    day count is zero or more, and negative when the day count is
    negative. *)
Theorem calculator_time_floor c d :
  (forall ns,
     Forall (fun t => t = years_to_expiry d)
       (calculator_times (trace (call_add add_hedge_option calc_hedge ns d c)))) ∧
  (forall ns,
     Forall (fun t => t = years_to_expiry d)
       (calculator_times (trace (call_pick add_hedge_option py_float ns d c)))) ∧
  (d + 1 = 0 -> years_to_expiry d = ((1 # 100) / 365)%Q) ∧
  (d + 1 ≠ 0 -> years_to_expiry d = (inject_Z (d + 1) / 365)%Q) ∧
  (0 <= d + 1 -> (0 < years_to_expiry d)%Q) ∧
  (d + 1 < 0 -> (years_to_expiry d < 0)%Q).
Proof.
  destruct (years_to_expiry_sign d) as (Hpos & Hneg & Hz & Hnz).
  split_and!; try done.
  - intros ns. apply calculator_times_of_events, call_add_times.
  - intros ns. apply calculator_times_of_events, call_pick_times.
Qed.

(** ** How [add] stops early *)

Lemma call_add_no_portfolio ns d c gP :
  greeks c !! "Portfolio" = Some gP -> truthy gP = false ->
  call_add add_hedge_option calc_hedge (Some ns) d c
  = Ret tt c [Print msg_pick_first].
Proof.
  intros HP HPt. unfold call_add. unfold_m. rewrite HP. cbn.
  rewrite HPt. reflexivity.
Qed.

Lemma call_add_out_of_range ns d c gP :
  greeks c !! "Portfolio" = Some gP -> truthy gP = true ->
  nth_error (options_list ns c) (identifier ns) = None ->
  call_add add_hedge_option calc_hedge (Some ns) d c = Ret tt c [].
Proof.
  intros HP HPt Hrow.
  assert (Hlt : (identifier ns <? length (options_list ns c))%nat = false).
  { apply Nat.ltb_ge, nth_error_None. exact Hrow. }
  unfold call_add, options_list in *. unfold_m. rewrite HP. cbn.
  rewrite HPt, Hlt. reflexivity.
Qed.

Lemma call_add_unparsed d c :
  call_add add_hedge_option calc_hedge None d c
  = Ret tt c [Print msg_valid_index].
Proof. reflexivity. Qed.

(** ** How [rmv] runs *)

Lemma no_leg_run c a b :
  options c !! "Option A" = Some a -> options c !! "Option B" = Some b ->
  no_leg c = Ret (negb (leg_truthy a) && negb (leg_truthy b)) c [].
Proof.
  intros HA HB. unfold no_leg. unfold_m. rewrite HA. cbn.
  destruct (leg_truthy a); cbn; [reflexivity|]. rewrite HB. reflexivity.
Qed.

Lemma some_leg_run c a b :
  options c !! "Option A" = Some a -> options c !! "Option B" = Some b ->
  some_leg c = Ret (leg_truthy a || leg_truthy b) c [].
Proof.
  intros HA HB. unfold some_leg. unfold_m. rewrite HA. cbn.
  destruct (leg_truthy a); cbn; [reflexivity|]. rewrite HB. reflexivity.
Qed.

Lemma call_rmv_no_leg ns c :
  options c !! "Option A" = Some None -> options c !! "Option B" = Some None ->
  call_rmv (Some ns) c = Ret tt c [Print msg_add_options].
Proof.
  intros HA HB. unfold call_rmv. unfold bind at 1.
  rewrite (no_leg_run c None None) by done. reflexivity.
Qed.

(** [rmv --all] replaces [self.options] and nothing else. *)
Lemma call_rmv_all_run ns c a b :
  options c !! "Option A" = Some a -> options c !! "Option B" = Some b ->
  leg_truthy a || leg_truthy b = true ->
  all ns = true ->
  call_rmv (Some ns) c
  = Ret tt (set_options {[ "Option A" := None; "Option B" := None ]} c)
      [Print ""].
Proof.
  intros HA HB Hleg Hall. unfold call_rmv. unfold bind at 1.
  rewrite (no_leg_run c a b) by done.
  replace (negb (leg_truthy a) && negb (leg_truthy b)) with false
    by (destruct (leg_truthy a), (leg_truthy b); done).
  rewrite Hall. unfold bind at 1. unfold modify at 1. unfold bind at 1.
  erewrite some_leg_run; [|reflexivity|reflexivity]. reflexivity.
Qed.

(** [rmv <name>] for a key of [self.options] empties the leg and the
    Greeks of that name together. *)
Lemma call_rmv_named_run ns ws c a b :
  options c !! "Option A" = Some a -> options c !! "Option B" = Some b ->
  leg_truthy a || leg_truthy b = true ->
  all ns = false -> option_words ns = Some ws ->
  contains (options c) (String.concat " " ws) = true ->
  let name := String.concat " " ws in
  let c1 := refreshed (set_greeks (<[name := ∅]> (greeks c))
                         (set_options (<[name := None]> (options c)) c)) in
  (exists out, call_rmv (Some ns) c = Ret tt c1 out) ∧
  options c1 !! name = Some None ∧ greeks c1 !! name = Some ∅.
Proof.
  intros HA HB Hleg Hall Hws Hin name c1. fold name in Hin.
  assert (Hc1 : options c1 !! name = Some None ∧ greeks c1 !! name = Some ∅).
  { unfold c1. rewrite refreshed_options, refreshed_greeks. cbn. by look. }
  split; [|exact Hc1].
  assert (HA1 : is_Some (options c1 !! "Option A")).
  { unfold c1. rewrite refreshed_options. cbn.
    destruct (decide (name = "Option A")) as [->|]; look; by eexists. }
  assert (HB1 : is_Some (options c1 !! "Option B")).
  { unfold c1. rewrite refreshed_options. cbn.
    destruct (decide (name = "Option B")) as [->|]; look; by eexists. }
  destruct HA1 as [a1 HA1], HB1 as [b1 HB1].
  unfold call_rmv. unfold bind at 1. rewrite (no_leg_run c a b) by done.
  replace (negb (leg_truthy a) && negb (leg_truthy b)) with false
    by (destruct (leg_truthy a), (leg_truthy b); done).
  rewrite Hall, Hws. fold name. unfold_m. cbn. rewrite Hin. cbn.
  rewrite update_runtime_choices_run. cbn. fold c1.
  unfold some_leg. unfold_m. rewrite HA1. cbn.
  destruct (leg_truthy a1); cbn; [by eexists|]. rewrite HB1. cbn.
  destruct (leg_truthy b1); by eexists.
Qed.

(** ** The invariant of reachable controllers *)

Lemma init_well_formed tk exp chain_calls chain_puts price inter c :
  init tk exp chain_calls chain_puts price inter = Some c -> well_formed c.
Proof.
  unfold init. destruct chain_calls; [discriminate|]. intros [= <-].
  split.
  - repeat split; by eexists.
  - split; intros H; vm_compute in H; discriminate H.
Qed.

Lemma refreshed_delta_in c s : delta_in (refreshed c) s = delta_in c s.
Proof. unfold delta_in. by rewrite refreshed_greeks. Qed.

Lemma refreshed_leg_in c s : leg_in (refreshed c) s = leg_in c s.
Proof. unfold leg_in. by rewrite refreshed_options. Qed.

Lemma refreshed_well_formed c : well_formed c -> well_formed (refreshed c).
Proof.
  unfold well_formed, has_keys, legs_have_greeks.
  by rewrite !refreshed_delta_in, !refreshed_leg_in, refreshed_greeks,
    refreshed_options.
Qed.

Lemma with_leg_well_formed slot opt g r c :
  well_formed c -> well_formed (with_leg slot opt g r c).
Proof.
  intros [(HP & HA & HB & HoA & HoB) [HlA HlB]].
  assert (Hg : forall k, is_Some (greeks c !! k) ->
                 is_Some (greeks (with_leg slot opt g r c) !! k)).
  { intros k Hk. destruct (decide (slot = k)) as [->|Hne].
    - rewrite with_leg_greeks_same. by eexists.
    - by rewrite with_leg_greeks_other. }
  assert (Ho : forall k, is_Some (options c !! k) ->
                 is_Some (options (with_leg slot opt g r c) !! k)).
  { intros k Hk. destruct (decide (slot = k)) as [->|Hne].
    - rewrite with_leg_options_same. by eexists.
    - by rewrite with_leg_options_other. }
  assert (Hl : forall s,
             (leg_in c s = true -> delta_in c s = true) ->
             leg_in (with_leg slot opt g r c) s = true ->
             delta_in (with_leg slot opt g r c) s = true).
  { intros s Hs. destruct (decide (slot = s)) as [->|Hne].
    - intros _. apply with_leg_delta_in.
    - unfold leg_in, delta_in in *.
      by rewrite with_leg_options_other, with_leg_greeks_other. }
  split; [repeat split; auto | split; auto].
Qed.

Lemma call_add_well_formed ns d c :
  well_formed c ->
  well_formed (final (call_add add_hedge_option calc_hedge ns d c)).
Proof.
  intros Hwf. destruct ns as [ns|]; [|exact Hwf].
  destruct Hwf as [Hk Hl].
  destruct Hk as ([gP HP] & [gA HA] & [gB HB] & HoA & HoB).
  assert (Hwf : well_formed c).
  { split; [repeat split; by eauto | exact Hl]. }
  destruct (truthy gP) eqn:HPt.
  - destruct (nth_error (options_list ns c) (identifier ns)) as [row|] eqn:Hrow.
    + rewrite (call_add_run _ _ _ gP gA gB row) by done. cbv zeta.
      destruct (free_slot c) as [slot|]; cbn; [|exact Hwf].
      by apply refreshed_well_formed, with_leg_well_formed.
    + by rewrite (call_add_out_of_range _ _ _ gP).
  - by rewrite (call_add_no_portfolio _ _ _ gP).
Qed.

Lemma call_pick_well_formed ns d c :
  well_formed c ->
  well_formed (final (call_pick add_hedge_option py_float ns d c)).
Proof.
  destruct (call_pick_frame ns d c) as (Ho & _ & _ & Hg & Hk).
  unfold well_formed, has_keys, legs_have_greeks, leg_in, delta_in.
  rewrite Ho, (Hg "Option A"), (Hg "Option B") by done. tauto.
Qed.

Lemma rmv_all_keeps_well_formed :
  preserves (keeps well_formed)
    (modify (set_options {[ "Option A" := None; "Option B" := None ]})).
Proof.
  apply preserves_modify. intros c [(HP & HA & HB & _) _].
  split; [repeat split; try done; by eexists|].
  split; intros H; vm_compute in H; discriminate H.
Qed.

Lemma rmv_named_keeps_well_formed name :
  preserves (keeps well_formed)
    (options_setitem name None ;;;
     modify (fun c => set_greeks (<[name := ∅]> (greeks c)) c) ;;;
     update_runtime_choices).
Proof.
  intros c Hwf. unfold_m. cbn. rewrite update_runtime_choices_run. cbn.
  apply refreshed_well_formed.
  destruct Hwf as [(HP & HA & HB & HoA & HoB) [HlA HlB]].
  assert (Hk : forall (V : Type) (m : gmap string V) (v : V) k,
             is_Some (m !! k) -> is_Some (<[name := v]> m !! k)).
  { intros V m v k Hk. destruct (decide (name = k)) as [->|]; look;
      [by eexists | done]. }
  assert (Hl : forall s,
             (leg_in c s = true -> delta_in c s = true) ->
             leg_in (set_greeks (<[name := ∅]> (greeks c))
                       (set_options (<[name := None]> (options c)) c)) s = true ->
             delta_in (set_greeks (<[name := ∅]> (greeks c))
                         (set_options (<[name := None]> (options c)) c)) s = true).
  { intros s Hs. unfold leg_in, delta_in in *. cbn.
    destruct (decide (name = s)) as [->|]; look; [discriminate | exact Hs]. }
  split; [repeat split; cbn; by apply Hk | split; by apply Hl].
Qed.

Lemma call_rmv_well_formed ns c :
  well_formed c -> well_formed (final (call_rmv ns c)).
Proof.
  revert c. change (preserves (keeps well_formed) (call_rmv ns)).
  unfold call_rmv.
  repeat first
    [ apply rmv_all_keeps_well_formed
    | apply rmv_named_keeps_well_formed
    | frame_step ].
Qed.

Lemma step_well_formed cmd c :
  well_formed c ->
  well_formed (step add_hedge_option calc_hedge py_float c cmd).
Proof.
  intros Hwf. unfold step. destruct cmd; cbn [run].
  - by apply call_add_well_formed.
  - by apply call_rmv_well_formed.
  - by apply call_pick_well_formed.
  - by rewrite call_sop_final.
  - by rewrite call_plot_final.
Qed.

Lemma session_well_formed cmds c :
  well_formed c ->
  well_formed (session add_hedge_option calc_hedge py_float c cmds).
Proof.
  revert c. induction cmds as [|cmd cmds IH]; intros c Hwf; [exact Hwf|].
  cbn. apply IH. by apply step_well_formed.
Qed.

(** Every controller a session can reach has its keys, and each stored leg
    has its Delta. *)
Lemma reachable_well_formed c :
  reachable add_hedge_option calc_hedge py_float c -> well_formed c.
Proof.
  intros (tk & exp & cs & ps & price & inter & c0 & cmds & Hinit & <-).
  apply session_well_formed. by eapply init_well_formed.
Qed.

(** ** How [sop] and [plot] run *)

Lemma call_sop_trace c a b gA gB :
  options c !! "Option A" = Some a -> options c !! "Option B" = Some b ->
  greeks c !! "Option A" = Some gA -> greeks c !! "Option B" = Some gB ->
  trace (call_sop calc_hedge (Some tt) c) =
  if negb (leg_truthy a) && negb (leg_truthy b) then [Print msg_add_options]
  else
    PositionsTable (positions_of (options c))
    :: (if contains gA "Delta" && contains gB "Delta"
        then match a with
             | Some la =>
                 trace (show_calculated_hedge calc_hedge (amount c)
                          (leg_type la) (greeks c) (leg_sign la) c)
                 ++ [Print ""]
             | None => []
             end
        else [Print ""]).
Proof.
  intros HoA HoB HA HB. unfold call_sop. unfold bind at 1.
  rewrite (no_leg_run c a b) by done.
  destruct (negb (leg_truthy a) && negb (leg_truthy b)); [reflexivity|].
  unfold_m. cbn. rewrite HA. cbn.
  destruct (contains gA "Delta"); cbn; [|reflexivity].
  rewrite HB. cbn. destruct (contains gB "Delta"); cbn; [|reflexivity].
  rewrite HoA. cbn. destruct a as [la|]; cbn; [|reflexivity].
  rewrite show_calculated_hedge_run. cbn. by rewrite ?app_nil_r.
Qed.

Lemma call_plot_trace c a b :
  options c !! "Option A" = Some a -> options c !! "Option B" = Some b ->
  trace (call_plot (Some tt) c)
  = [PlotPayoff (current_price c) [a; b] (underlying c) (ticker c)
       (expiration c)].
Proof.
  intros HoA HoB. unfold call_plot. unfold_m. by rewrite HoA, HoB.
Qed.

Lemma show_calculated_hedge_no_guidance amt sd g sg c :
  ~ In (Print msg_add_options)
      (trace (show_calculated_hedge calc_hedge amt sd g sg c)).
Proof.
  unfold show_calculated_hedge. unfold_m.
  destruct (calc_hedge amt sd g sg) as [[[wa wb] ws] sing].
  destruct (float_truthy _); [destruct sing|]; cbn; intros E; in_absurd E.
Qed.

(** C6, as the code has it: [sop] and [plot] never change the controller.
    [sop] prints the guidance message, and nothing else, when no leg is
    stored.  With a leg stored it never prints the guidance: its output
    starts with the positions table, and is exactly the table and a blank
    line when a Delta is missing under one of the two slots.  [plot] has no
    test on the legs: whenever its command line parses it prints nothing
    and calls the payoff renderer once, with both slots as they are. *)
Theorem sop_plot_read_only c :
  (forall ns, final (call_sop calc_hedge ns c) = c) ∧
  (forall ns, final (call_plot ns c) = c) ∧
  (reachable add_hedge_option calc_hedge py_float c ->
   leg_in c "Option A" = false -> leg_in c "Option B" = false ->
   trace (call_sop calc_hedge (Some tt) c) = [Print msg_add_options]) ∧
  (reachable add_hedge_option calc_hedge py_float c ->
   leg_in c "Option A" = true ∨ leg_in c "Option B" = true ->
   ~ In (Print msg_add_options) (trace (call_sop calc_hedge (Some tt) c)) ∧
   (exists rest,
      trace (call_sop calc_hedge (Some tt) c)
      = PositionsTable (positions_of (options c)) :: rest) ∧
   (delta_in c "Option A" && delta_in c "Option B" = false ->
    trace (call_sop calc_hedge (Some tt) c)
    = [PositionsTable (positions_of (options c)); Print ""])) ∧
  (reachable add_hedge_option calc_hedge py_float c ->
   exists a b,
     options c !! "Option A" = Some a ∧ options c !! "Option B" = Some b ∧
     trace (call_plot (Some tt) c)
     = [PlotPayoff (current_price c) [a; b] (underlying c) (ticker c)
          (expiration c)]).
Proof.
  split_and!.
  - intros ns. apply call_sop_final.
  - intros ns. apply call_plot_final.
  - intros Hr HlA HlB. apply reachable_well_formed in Hr.
    destruct Hr as [(_ & [gA HA] & [gB HB] & [a HoA] & [b HoB]) _].
    rewrite (call_sop_trace c a b gA gB) by done.
    unfold leg_in in *. rewrite HoA in HlA. rewrite HoB in HlB.
    by rewrite HlA, HlB.
  - intros Hr Hl. apply reachable_well_formed in Hr.
    destruct Hr as [(_ & [gA HA] & [gB HB] & [a HoA] & [b HoB]) _].
    rewrite (call_sop_trace c a b gA gB) by done.
    unfold leg_in, delta_in in *. rewrite HoA, HoB in Hl. rewrite HA, HB.
    replace (negb (leg_truthy a) && negb (leg_truthy b)) with false
      by (destruct Hl as [-> | ->]; by destruct (leg_truthy _)).
    split_and!.
    + destruct (contains gA "Delta" && contains gB "Delta");
        [destruct a as [la|]|].
      * intros [E | E]; [discriminate E|].
        apply in_app_or in E as [E | E];
          [by apply show_calculated_hedge_no_guidance in E | in_absurd E].
      * intros E. in_absurd E.
      * intros E. in_absurd E.
    + by eexists.
    + by intros ->.
  - intros Hr. apply reachable_well_formed in Hr.
    destruct Hr as [(_ & _ & _ & [a HoA] & [b HoB]) _].
    exists a, b. by rewrite (call_plot_trace c a b).
Qed.

(** ** Where [add] stores *)

Lemma free_slot_cases c slot :
  free_slot c = Some slot -> slot = "Option A" ∨ slot = "Option B".
Proof.
  unfold free_slot.
  destruct (negb (delta_in c "Option A")); [intros [= <-]; by left|].
  destruct (negb (delta_in c "Option B")); [intros [= <-]; by right|done].
Qed.

Lemma free_slot_full c :
  delta_in c "Option A" = true -> delta_in c "Option B" = true ->
  free_slot c = None.
Proof. unfold free_slot. by intros -> ->. Qed.

Lemma free_slot_no_delta c slot :
  free_slot c = Some slot -> delta_in c slot = false.
Proof.
  unfold free_slot. destruct (delta_in c "Option A") eqn:HA; cbn;
    [|by intros [= <-]].
  destruct (delta_in c "Option B") eqn:HB; cbn; [done | by intros [= <-]].
Qed.

(** An [add] issued while the Portfolio Greeks are absent, or while both
    slots hold a leg, changes nothing in the controller.  A command line
    that does not parse gets the valid-index message; a parsed one gets the
    pick-first message while the Portfolio Greeks are absent and, once they
    are present, the two-options message when the identifier lies inside
    the selected list. *)
Theorem call_add_rejected c ns d :
  reachable add_hedge_option calc_hedge py_float c ->
  greeks_in c "Portfolio" = false
  ∨ (leg_in c "Option A" = true ∧ leg_in c "Option B" = true) ->
  let o := call_add add_hedge_option calc_hedge ns d c in
  final o = c ∧
  (ns = None -> trace o = [Print msg_valid_index]) ∧
  (forall a, ns = Some a -> greeks_in c "Portfolio" = false ->
     trace o = [Print msg_pick_first]) ∧
  (forall a row, ns = Some a -> greeks_in c "Portfolio" = true ->
     nth_error (options_list a c) (identifier a) = Some row ->
     trace o = [PrintCost (row_last row); Print msg_two_options]).
Proof.
  intros Hr Hcase o. subst o. apply reachable_well_formed in Hr.
  destruct Hr as [([gP HP] & [gA HA] & [gB HB] & _) [HlA HlB]].
  destruct ns as [a|]; [|split_and!; done].
  unfold greeks_in in *. rewrite HP in *.
  destruct (truthy gP) eqn:HPt.
  - destruct Hcase as [?|[HA' HB']]; [done|].
    assert (Hfull : free_slot c = None) by (apply free_slot_full; auto).
    destruct (nth_error (options_list a c) (identifier a)) as [row|] eqn:Hrow.
    + rewrite (call_add_run _ _ _ gP gA gB row) by done. cbv zeta.
      rewrite Hfull. split_and!; try done.
      intros a' row' [= <-] _ Hrow'. cbn. congruence.
    + rewrite (call_add_out_of_range _ _ _ gP) by done.
      split_and!; try done. intros a' row' [= <-] _ Hrow'. congruence.
  - rewrite (call_add_no_portfolio _ _ _ gP) by done. split_and!; done.
Qed.

(** C9: in an [add] that stores a leg the calculator is called once, with
    side +1 for a call and -1 for a put; the long/short flag only sets the
    sign recorded in the leg, so the Greeks written for a long and for a
    short leg of the same type, strike and volatility are the same. *)
Theorem add_greeks_ignore_sign c (p : bool) (i : nat) d row slot :
  reachable add_hedge_option calc_hedge py_float c ->
  greeks_in c "Portfolio" = true ->
  nth_error (if p then puts c else calls c) i = Some row ->
  free_slot c = Some slot ->
  let add (sh : bool) :=
    call_add add_hedge_option calc_hedge
      (Some {| put := p; short := sh; identifier := i |}) d c in
  let sd := if p then -1 else 1 in
  let r := add_hedge_option (current_price c) (row_iv row) (row_strike row)
             (years_to_expiry d) sd in
  (forall sh,
     calculator_calls (trace (add sh))
       = [(current_price c, row_iv row, row_strike row, years_to_expiry d, sd)]
     ∧ options (final (add sh)) !! slot
       = Some (Some {| leg_type := if p then "Put" else "Call";
                       leg_sign := if sh then -1 else 1;
                       leg_strike := row_strike row;
                       leg_implied_volatility := row_iv row;
                       leg_cost := row_last row |})
     ∧ exists g,
         greeks (final (add sh)) !! slot = Some g ∧
         g !! "Delta" = Some (fst (fst r)) ∧
         g !! "Gamma" = Some (snd (fst r)) ∧
         g !! "Vega" = Some (snd r)) ∧
  greeks (final (add true)) = greeks (final (add false)).
Proof.
  intros Hr HPt Hrow Hfree add sd r. subst add. apply reachable_well_formed in Hr.
  destruct Hr as [([gP HP] & [gA HA] & [gB HB] & _) _].
  unfold greeks_in in HPt. rewrite HP in HPt.
  split.
  - intros sh.
    rewrite (call_add_run _ _ _ gP gA gB row) by done. cbv zeta.
    rewrite Hfree. cbn [final trace put short identifier].
    rewrite refreshed_options, refreshed_greeks.
    rewrite with_leg_options_same, with_leg_greeks_same.
    split_and!.
    + cbn. rewrite flat_map_app.
      destruct (_ && _); [|reflexivity].
      fold (calculator_calls
              (trace (show_calculated_hedge calc_hedge (amount c)
                        (if p then "Put" else "Call")
                        (greeks
                           (with_leg slot
                              (leg_of {| put := p; short := sh; identifier := i |} row)
                              (default ∅ (greeks c !! slot)) r c))
                        (if sh then -1 else 1)
                        (with_leg slot
                           (leg_of {| put := p; short := sh; identifier := i |} row)
                           (default ∅ (greeks c !! slot)) r c)))).
      by rewrite show_calculated_hedge_no_calculator.
    + reflexivity.
    + eexists. split; [reflexivity|]. fold sd. fold r. by look.
  - rewrite !(call_add_run _ _ _ gP gA gB row) by done. cbv zeta.
    rewrite Hfree. cbn [final]. by rewrite !refreshed_greeks.
Qed.

(** ** The arguments of the solver *)

Lemma reachable_step c cmd :
  reachable add_hedge_option calc_hedge py_float c ->
  reachable add_hedge_option calc_hedge py_float
    (step add_hedge_option calc_hedge py_float c cmd).
Proof.
  intros (tk & exp & cs & ps & price & inter & c0 & cmds & Hinit & <-).
  exists tk, exp, cs, ps, price, inter, c0, (cmds ++ [cmd])%list.
  split; [exact Hinit|]. unfold session. by rewrite fold_left_app.
Qed.

Lemma leg_has_delta c slot l g :
  well_formed c -> slot = "Option A" ∨ slot = "Option B" ->
  options c !! slot = Some (Some l) -> greeks c !! slot = Some g ->
  contains g "Delta" = true.
Proof.
  intros [_ [HlA HlB]] Hslot Ho Hg.
  assert (Hd : delta_in c slot = true).
  { destruct Hslot as [-> | ->]; [apply HlA | apply HlB];
      unfold leg_in; by rewrite Ho. }
  unfold delta_in in Hd. by rewrite Hg in Hd.
Qed.

(** With both legs stored, [sop] calls the solver once, with the type and
    sign of Option A. *)
Lemma call_sop_sides c la lb :
  reachable add_hedge_option calc_hedge py_float c ->
  options c !! "Option A" = Some (Some la) ->
  options c !! "Option B" = Some (Some lb) ->
  hedge_sides (trace (call_sop calc_hedge (Some tt) c))
  = [(leg_type la, leg_sign la)].
Proof.
  intros Hr HoA HoB. apply reachable_well_formed in Hr.
  destruct (Hr) as [(_ & [gA HA] & [gB HB] & _) _].
  rewrite (call_sop_trace c (Some la) (Some lb) gA gB) by done. cbn.
  rewrite (leg_has_delta c "Option A" la gA), (leg_has_delta c "Option B" lb gB)
    by auto.
  cbn. pose proof (show_calculated_hedge_sides (amount c) (leg_type la)
                     (greeks c) (leg_sign la) c) as Hs.
  unfold hedge_sides in *. by rewrite flat_map_app, Hs.
Qed.

(** An [add] that stores a leg next to a stored one calls the solver once,
    with the type and sign of the leg just added. *)
Lemma call_add_sides c ns d row slot lo :
  reachable add_hedge_option calc_hedge py_float c ->
  greeks_in c "Portfolio" = true ->
  nth_error (options_list ns c) (identifier ns) = Some row ->
  free_slot c = Some slot ->
  options c !! other_slot slot = Some (Some lo) ->
  let o := call_add add_hedge_option calc_hedge (Some ns) d c in
  hedge_sides (trace o) = [(leg_type (leg_of ns row), leg_sign (leg_of ns row))] ∧
  options (final o) !! slot = Some (Some (leg_of ns row)) ∧
  options (final o) !! other_slot slot = Some (Some lo).
Proof.
  intros Hr HPt Hrow Hfree Hlo o. subst o.
  pose proof (reachable_well_formed c Hr) as Hwf.
  destruct (Hwf) as [([gP HP] & [gA HA] & [gB HB] & _) _].
  unfold greeks_in in HPt. rewrite HP in HPt.
  assert (Hne : slot ≠ other_slot slot).
  { destruct (free_slot_cases c slot Hfree) as [-> | ->]; done. }
  assert (Hother : other_slot slot = "Option A" ∨ other_slot slot = "Option B").
  { destruct (free_slot_cases c slot Hfree) as [-> | ->]; auto. }
  assert (Hd : delta_in c (other_slot slot) = true).
  { unfold delta_in.
    destruct (greeks c !! other_slot slot) as [g|] eqn:Hg.
    - by eapply leg_has_delta.
    - destruct Hother as [E|E]; rewrite E in Hg; congruence. }
  rewrite (call_add_run _ _ _ gP gA gB row) by done. cbv zeta.
  rewrite Hfree. cbn [final trace].
  rewrite refreshed_options, with_leg_options_same, with_leg_options_other
    by done.
  split_and!; try done.
  set (c1 := with_leg slot _ _ _ c).
  assert (Hboth : delta_in c1 "Option A" && delta_in c1 "Option B" = true).
  { assert (H1 : delta_in c1 slot = true) by apply with_leg_delta_in.
    assert (H2 : delta_in c1 (other_slot slot) = true).
    { unfold delta_in, c1. by rewrite with_leg_greeks_other. }
    destruct (free_slot_cases c slot Hfree) as [E | E]; rewrite E in *;
      cbn in H2; by rewrite H1, H2. }
  rewrite Hboth.
  pose proof (show_calculated_hedge_sides (amount c1)
                (leg_type (leg_of ns row)) (greeks c1)
                (leg_sign (leg_of ns row)) c1) as Hs.
  unfold hedge_sides in *. cbn [flat_map app].
  by rewrite flat_map_app, Hs.
Qed.

(** C10, as the code has it: with both legs stored [sop] hands the solver
    the type and sign of Option A, while the [add] that completes the pair
    hands it the type and sign of the leg just added.  When that [add]
    filled Option B, [sop] on the resulting controller passes the other
    leg's type and sign; when it filled Option A, both pass the same. *)
Theorem solver_arguments c :
  reachable add_hedge_option calc_hedge py_float c ->
  (forall la lb,
     options c !! "Option A" = Some (Some la) ->
     options c !! "Option B" = Some (Some lb) ->
     hedge_sides (trace (call_sop calc_hedge (Some tt) c))
     = [(leg_type la, leg_sign la)]) ∧
  (forall ns d row slot lo,
     greeks_in c "Portfolio" = true ->
     nth_error (options_list ns c) (identifier ns) = Some row ->
     free_slot c = Some slot ->
     options c !! other_slot slot = Some (Some lo) ->
     let o := call_add add_hedge_option calc_hedge (Some ns) d c in
     let new := leg_of ns row in
     hedge_sides (trace o) = [(leg_type new, leg_sign new)] ∧
     hedge_sides (trace (call_sop calc_hedge (Some tt) (final o)))
     = [if String.eqb slot "Option A"
        then (leg_type new, leg_sign new)
        else (leg_type lo, leg_sign lo)]).
Proof.
  intros Hr. split.
  - intros la lb. by apply call_sop_sides.
  - intros ns d row slot lo HPt Hrow Hfree Hlo o new.
    destruct (call_add_sides c ns d row slot lo) as (Hs & Hnew & Hold);
      try done.
    fold o in Hs, Hnew, Hold. split; [exact Hs|].
    assert (Hr' : reachable add_hedge_option calc_hedge py_float (final o)).
    { apply (reachable_step c (Add (Some ns) d) Hr). }
    destruct (free_slot_cases c slot Hfree) as [-> | ->]; cbn in *.
    + by apply (call_sop_sides (final o) new lo).
    + by apply (call_sop_sides (final o) lo new).
Qed.

(** The solver only ever sees a Greeks dictionary with a Delta under both
    options: the test that guards its two call sites. *)
Lemma hedge_call_needs_both_greeks c ns d :
  reachable add_hedge_option calc_hedge py_float c ->
  let both g :=
    exists gA gB : gmap string Q,
      g !! "Option A" = Some gA ∧ contains gA "Delta" = true ∧
      g !! "Option B" = Some gB ∧ contains gB "Delta" = true in
  Forall both
    (hedge_greeks (trace (call_add add_hedge_option calc_hedge ns d c))) ∧
  Forall both (hedge_greeks (trace (call_sop calc_hedge (Some tt) c))).
Proof.
  intros Hr both. apply reachable_well_formed in Hr.
  destruct Hr as [([gP HP] & [gA HA] & [gB HB] & [a HoA] & [b HoB]) _].
  split.
  - destruct ns as [ns|]; [|constructor].
    destruct (truthy gP) eqn:HPt;
      [|rewrite (call_add_no_portfolio _ _ _ gP) by done; constructor].
    destruct (nth_error (options_list ns c) (identifier ns)) as [row|] eqn:Hrow;
      [|rewrite (call_add_out_of_range _ _ _ gP) by done; constructor].
    rewrite (call_add_run _ _ _ gP gA gB row) by done. cbv zeta.
    destruct (free_slot c) as [slot|]; [|repeat constructor].
    cbn [trace]. set (c1 := with_leg slot _ _ _ c).
    pose proof (show_calculated_hedge_greeks (amount c1)
                  (leg_type (leg_of ns row)) (greeks c1)
                  (leg_sign (leg_of ns row)) c1) as Hs.
    unfold hedge_greeks in *. cbn [flat_map app]. rewrite flat_map_app.
    destruct (delta_in c1 "Option A") eqn:H1; [|repeat constructor].
    destruct (delta_in c1 "Option B") eqn:H2; [|repeat constructor].
    cbn [andb]. rewrite Hs. cbn [flat_map app]. constructor; [|constructor].
    unfold delta_in in H1, H2.
    destruct (greeks c1 !! "Option A") as [g1|] eqn:E1; [|done].
    destruct (greeks c1 !! "Option B") as [g2|] eqn:E2; [|done].
    by exists g1, g2.
  - rewrite (call_sop_trace c a b gA gB) by done.
    destruct (negb (leg_truthy a) && negb (leg_truthy b)); [repeat constructor|].
    destruct (contains gA "Delta") eqn:H1; [|repeat constructor].
    destruct (contains gB "Delta") eqn:H2; [|repeat constructor].
    destruct a as [la|]; [|repeat constructor].
    pose proof (show_calculated_hedge_greeks (amount c) (leg_type la)
                  (greeks c) (leg_sign la) c) as Hs.
    unfold hedge_greeks in *. cbn [flat_map app andb].
    rewrite flat_map_app, Hs. cbn [flat_map app]. constructor; [|constructor].
    by exists gA, gB.
Qed.

End Properties.

(** * The commands on the sample session *)

Ltac by_sample_session cmds :=
  exists "TSLA", "2030-01-18", sample_calls, sample_puts, (102 # 1)%Q, true,
    sample_controller, cmds; split; [reflexivity | vm_compute; reflexivity].

Lemma sample_controller_init :
  init "TSLA" "2030-01-18" sample_calls sample_puts (102 # 1)%Q true
  = Some sample_controller.
Proof. reflexivity. Qed.

(** ** The lookup of [pick] *)

(** A strike that equals no row leaves the index at [-1]. *)
Lemma find_strike_miss col target i :
  (forall r, In r col -> py_eq (row_strike r) target = false) ->
  find_strike col target i = -1.
Proof.
  revert i. induction col as [|r col IH]; intros i H; [reflexivity|].
  cbn. rewrite (H r) by (by left). apply IH. intros r' Hr'. apply H. by right.
Qed.

(** The strike as [pick] stores it, a text, equals no row at all. *)
Lemma find_strike_text col s i : find_strike col (PyStr s) i = -1.
Proof. apply find_strike_miss. reflexivity. Qed.

(** C2 (the code does otherwise): a [pick] of strike 999, which is not in
    the chain of calls (100 and 105), returns without printing anything; the
    lookup index stays at -1, the calculator is called with the volatility
    of the last row (0.3, the row of strike 105), and the Portfolio Greeks
    are written from it. *)
Theorem pick_missing_strike_uses_last_row :
  let o := sample_call_pick (Some args_pick_999) 10 sample_controller in
  find_strike sample_calls (PyStr "999") 0 = -1 ∧
  returns o = true ∧
  messages (trace o) = [] ∧
  calculator_calls (trace o)
    = [((102 # 1)%Q, (3 # 10)%Q, (999 # 1)%Q, (11 # 365)%Q, 1)] ∧
  greeks_in sample_controller "Portfolio" = false ∧
  greeks_in (final o) "Portfolio" = true.
Proof. vm_compute. repeat split. Qed.

(** ** Removing all the legs *)

(** C1 (the code does otherwise): after [pick], [add] and [rmv --all] the
    leg of Option A is empty while its Greeks are still there, Delta
    included. *)
Theorem rmv_all_leaves_greeks :
  let c := sample_session [pick_100_long_call; add_call_long; rmv_all] in
  leg_in c "Option A" = false ∧
  greeks_in c "Option A" = true ∧
  delta_in c "Option A" = true ∧
  ~ slot_consistent c "Option A".
Proof.
  vm_compute. repeat split. intros H. discriminate H.
Qed.

(** The sibling path: [rmv Option A] empties the leg and its Greeks. *)
Lemma rmv_named_clears_both :
  let c := sample_session [pick_100_long_call; add_call_long; rmv_option_a] in
  leg_in c "Option A" = false ∧ greeks_in c "Option A" = false ∧
  slot_consistent c "Option A".
Proof. vm_compute. repeat split. Qed.

(** Once both legs were removed with [rmv --all], [add] still refuses a
    third leg and [rmv] finds nothing to remove. *)
Lemma rmv_all_locks_both_slots :
  let c := sample_session
             [pick_100_long_call; add_call_long; add_put_short; rmv_all] in
  leg_in c "Option A" = false ∧ leg_in c "Option B" = false ∧
  messages (trace (sample_call_add (Some args_call_long) 10 c))
    = [msg_two_options] ∧
  messages (trace (call_rmv (Some {| option_words := Some ["Option"; "A"];
                                     all := false |}) c))
    = [msg_add_options].
Proof. vm_compute. repeat split. Qed.

(** C7 (the code does otherwise): after [pick], [add] and [rmv --all], the
    next [add] goes to Option B, finds the Delta that Option A left behind,
    and calls the solver although one leg only is stored. *)
Theorem solver_called_with_one_leg :
  let c := sample_session [pick_100_long_call; add_call_long; rmv_all] in
  let o := sample_call_add (Some args_call_long) 10 c in
  leg_in (final o) "Option A" = false ∧
  leg_in (final o) "Option B" = true ∧
  hedge_sides (trace o) = [("Call", 1)].
Proof. vm_compute. repeat split. Qed.

(** ** An [add] that is dropped *)

(** C5 (the code does otherwise): with both slots taken and a chain of two
    calls and one put, [add --put -i 1] is not refused with a message.  The
    parser takes the choices of [-i] from the calls, because the literal
    [-p] is not on the command line, so identifier 1 is accepted; the puts
    have one row only, the range test fails, and the command returns
    without printing anything.  Typed with [-p], the same command is
    stopped by the parser and gets the valid-index message. *)
Theorem call_add_silent_rejection :
  let c := sample_session
             [pick_100_long_call; add_call_long; add_put_short] in
  let o := sample_call_add (Some args_put_beyond) 10 c in
  sample_reachable c ∧
  leg_in c "Option A" = true ∧ leg_in c "Option B" = true ∧
  greeks_in c "Portfolio" = true ∧
  index_choices ["--put"; "-i"; "1"] c = [0; 1]%nat ∧
  returns o = true ∧ trace o = [] ∧ final o = c ∧
  index_choices ["-p"; "-i"; "1"] c = [0]%nat ∧
  trace (sample_call_add None 10 c) = [Print msg_valid_index].
Proof.
  split; [by_sample_session [pick_100_long_call; add_call_long; add_put_short]|].
  vm_compute. repeat split.
Qed.

(** ** Where the claims stop short *)

(** C3, refuted as stated: with the expiry one day in the past the day
    count is -1, and [add] hands the calculator the time -1/365. *)
Lemma calculator_time_negative :
  let c := sample_session [pick_100_long_call] in
  calculator_times (trace (sample_call_add (Some args_call_long) (-2) c))
    = [(-1 # 365)%Q] ∧
  calculator_times (trace (sample_call_pick (Some args_pick_100) (-2) c))
    = [(-1 # 365)%Q] ∧
  ~ (0 < -1 # 365)%Q.
Proof.
  vm_compute. repeat split. intros H. discriminate H.
Qed.

(** C6, refuted as stated: with no leg stored [plot] calls the payoff
    renderer, and with one leg stored [sop] prints the positions table and
    no guidance. *)
Lemma plot_without_legs :
  let c := sample_session [pick_100_long_call; add_call_long] in
  leg_in sample_controller "Option A" = false ∧
  leg_in sample_controller "Option B" = false ∧
  plot_calls (trace (call_plot (Some tt) sample_controller))
    = [[None; None]] ∧
  leg_in c "Option A" = true ∧ leg_in c "Option B" = false ∧
  messages (trace (sample_call_sop (Some tt) c)) = [""].
Proof. vm_compute. repeat split. Qed.

(** C10, refuted as stated: the pair is completed by an [add] into
    Option A (after [rmv Option A]); the two legs differ in type and in
    sign, yet [add] and [sop] hand the solver the same side and sign. *)
Lemma same_solver_arguments :
  let c := sample_session
             [pick_100_long_call; add_call_long; add_put_short; rmv_option_a] in
  let o := sample_call_add (Some args_call_long) 10 c in
  exists la lb,
    options (final o) !! "Option A" = Some (Some la) ∧
    options (final o) !! "Option B" = Some (Some lb) ∧
    leg_type la ≠ leg_type lb ∧ leg_sign la ≠ leg_sign lb ∧
    hedge_sides (trace o) = [("Call", 1)] ∧
    hedge_sides (trace (sample_call_sop (Some tt) (final o))) = [("Call", 1)].
Proof.
  do 2 eexists. vm_compute. repeat split; intros H; discriminate H.
Qed.

(** * The theorems at work on the sample session *)

Lemma calculator_time_floor_witness :
  0 <= 10 + 1 ∧ (0 < years_to_expiry 10)%Q.
Proof.
  assert (H : 0 <= 10 + 1) by lia. split; [exact H|].
  destruct (calculator_time_floor sample_add_hedge_option sample_calc_hedge
              float_of_digits sample_controller 10)
    as (_ & _ & _ & _ & Hpos & _).
  exact (Hpos H).
Defined.


Lemma call_add_rejected_witness :
  greeks_in sample_controller "Portfolio" = false ∧
  final (sample_call_add (Some args_call_long) 10 sample_controller)
    = sample_controller ∧
  trace (sample_call_add (Some args_call_long) 10 sample_controller)
    = [Print msg_pick_first].
Proof.
  assert (Hr : sample_reachable sample_controller) by by_sample_session (@nil command).
  assert (Hp : greeks_in sample_controller "Portfolio" = false) by reflexivity.
  destruct (call_add_rejected sample_add_hedge_option sample_calc_hedge
              float_of_digits sample_controller (Some args_call_long) 10 Hr
              (or_introl Hp)) as (Hfinal & _ & Hmsg & _).
  split; [exact Hp|]. split; [exact Hfinal|].
  exact (Hmsg args_call_long eq_refl Hp).
Defined.

Lemma sop_plot_read_only_witness :
  let c := sample_session [pick_100_long_call; add_call_long] in
  (leg_in sample_controller "Option A" = false ∧
   leg_in sample_controller "Option B" = false ∧
   trace (call_sop sample_calc_hedge (Some tt) sample_controller)
   = [Print msg_add_options]) ∧
  (leg_in c "Option A" = true ∧
   delta_in c "Option A" && delta_in c "Option B" = false ∧
   ~ In (Print msg_add_options)
       (trace (call_sop sample_calc_hedge (Some tt) c)) ∧
   trace (call_sop sample_calc_hedge (Some tt) c)
   = [PositionsTable (positions_of (options c)); Print ""]) ∧
  (exists a b,
     options c !! "Option A" = Some a ∧ options c !! "Option B" = Some b ∧
     trace (call_plot (Some tt) c)
     = [PlotPayoff (current_price c) [a; b] (underlying c) (ticker c)
          (expiration c)]).
Proof.
  intros c.
  assert (Hr0 : sample_reachable sample_controller)
    by by_sample_session (@nil command).
  assert (Hr : sample_reachable c)
    by by_sample_session [pick_100_long_call; add_call_long].
  assert (HA0 : leg_in sample_controller "Option A" = false) by reflexivity.
  assert (HB0 : leg_in sample_controller "Option B" = false) by reflexivity.
  assert (HA : leg_in c "Option A" = true) by (vm_compute; reflexivity).
  assert (Hd : delta_in c "Option A" && delta_in c "Option B" = false)
    by (vm_compute; reflexivity).
  destruct (sop_plot_read_only sample_add_hedge_option sample_calc_hedge
              float_of_digits sample_controller) as (_ & _ & Hsop0 & _).
  clearbody c.
  destruct (sop_plot_read_only sample_add_hedge_option sample_calc_hedge
              float_of_digits c) as (_ & _ & _ & Hsop & Hplot).
  destruct (Hsop Hr (or_introl HA)) as (Hno & _ & Htable).
  split; [split_and!; [exact HA0 | exact HB0 | exact (Hsop0 Hr0 HA0 HB0)]|].
  split; [split_and!; [exact HA | exact Hd | exact Hno | exact (Htable Hd)]|].
  exact (Hplot Hr).
Defined.

Lemma add_greeks_ignore_sign_witness :
  let c := sample_session [pick_100_long_call] in
  greeks_in c "Portfolio" = true ∧
  free_slot c = Some "Option A" ∧
  greeks (final (sample_call_add
                   (Some {| put := false; short := true; identifier := 0%nat |})
                   10 c))
  = greeks (final (sample_call_add
                     (Some {| put := false; short := false; identifier := 0%nat |})
                     10 c)).
Proof.
  intros c.
  assert (Hr : sample_reachable c) by by_sample_session [pick_100_long_call].
  assert (Hp : greeks_in c "Portfolio" = true) by (vm_compute; reflexivity).
  assert (Hf : free_slot c = Some "Option A") by (vm_compute; reflexivity).
  assert (Hrow : nth_error (calls c) 0 = Some ((100 # 1)%Q, (1 # 5)%Q, (5 # 1)%Q))
    by (vm_compute; reflexivity).
  split; [exact Hp|]. split; [exact Hf|].
  exact (proj2 (add_greeks_ignore_sign sample_add_hedge_option sample_calc_hedge
                  float_of_digits c false 0%nat 10 _ "Option A" Hr Hp Hrow Hf)).
Defined.

Lemma solver_arguments_witness :
  let c := sample_session [pick_100_long_call; add_call_long] in
  let o := sample_call_add (Some args_put_short) 10 c in
  free_slot c = Some "Option B" ∧
  hedge_sides (trace o) = [("Put", -1)] ∧
  hedge_sides (trace (sample_call_sop (Some tt) (final o))) = [("Call", 1)].
Proof.
  intros c o.
  assert (Hr : sample_reachable c)
    by by_sample_session [pick_100_long_call; add_call_long].
  assert (Hp : greeks_in c "Portfolio" = true) by (vm_compute; reflexivity).
  assert (Hf : free_slot c = Some "Option B") by (vm_compute; reflexivity).
  assert (Hrow : nth_error (options_list args_put_short c)
                   (identifier args_put_short)
                 = Some ((100 # 1)%Q, (1 # 4)%Q, (6 # 1)%Q))
    by (vm_compute; reflexivity).
  assert (Hlo : options c !! other_slot "Option B"
                = Some (Some {| leg_type := "Call"; leg_sign := 1;
                                leg_strike := (100 # 1)%Q;
                                leg_implied_volatility := (1 # 5)%Q;
                                leg_cost := (5 # 1)%Q |}))
    by (vm_compute; reflexivity).
  split; [exact Hf|].
  exact (proj2 (solver_arguments sample_add_hedge_option sample_calc_hedge
                  float_of_digits c Hr)
           args_put_short 10 _ "Option B" _ Hp Hrow Hf Hlo).
Defined.

(** * Further properties of the commands *)

Global Instance market_frame_preorder : PreOrder market_frame.
Proof.
  split.
  - intros c. by split_and!.
  - intros c1 c2 c3 (H1 & H2 & H3 & H4 & H5 & H6) (K1 & K2 & K3 & K4 & K5 & K6).
    split_and!; congruence.
Qed.

Section More.

Local Set Default Proof Using "Type".

Variable add_hedge_option : Q -> Q -> Q -> Q -> Z -> Q * Q * Q.
Variable calc_hedge :
  Q -> string -> gmap string (gmap string Q) -> Z ->
  float * float * float * bool.
Variable py_float : string -> option Q.

(** ** What no command writes *)

Lemma run_market_frame cmd :
  preserves market_frame (run add_hedge_option calc_hedge py_float cmd).
Proof.
  destruct cmd; cbn [run];
    unfold call_add, call_rmv, call_pick, call_sop, call_plot, store_leg,
      finish_add, add_and_show_greeks, hedge_model_add_hedge_option,
      show_calculated_hedge, update_runtime_choices, float_of_amount,
      float_of_pyval, greeks_setitem, options_setitem;
    repeat first
      [ apply preserves_modify; intros c; by split_and!
      | frame_step ].
Qed.

Lemma session_market_frame cmds c :
  market_frame c (session add_hedge_option calc_hedge py_float c cmds).
Proof.
  revert c. induction cmds as [|cmd cmds IH]; intros c; [reflexivity|].
  cbn. etrans; [apply (run_market_frame cmd c) | apply IH].
Qed.

Lemma reachable_calls_nonempty c :
  reachable add_hedge_option calc_hedge py_float c -> calls c ≠ [].
Proof.
  intros (tk & exp & cs & ps & price & inter & c0 & cmds & Hinit & <-).
  destruct (session_market_frame cmds c0) as (Hc & _). rewrite Hc.
  unfold init in Hinit. destruct cs; [discriminate|].
  by injection Hinit as <-.
Qed.

(** X1: no command, returning or raising, writes the option chain, the
    ticker, the spot price, the expiry or the interactive flag: a reachable
    controller still holds what its constructor fetched, and its list of
    calls is never empty. *)
Theorem market_data_never_changes c :
  reachable add_hedge_option calc_hedge py_float c ->
  (forall cmds,
     market_frame c (session add_hedge_option calc_hedge py_float c cmds)) ∧
  calls c ≠ [].
Proof.
  intros Hr. split; [intros cmds; apply session_market_frame|].
  by apply reachable_calls_nonempty.
Qed.

(** ** How [pick] runs *)

Lemma iloc_last {A} (l : list A) x c :
  last l = Some x -> iloc l (-1) c = Ret x c [].
Proof.
  intros H. apply last_Some in H as [l' ->]. unfold iloc.
  rewrite length_app. cbn [length].
  replace (-1 <? 0) with true by reflexivity.
  assert (H1 : (0 <=? Z.of_nat (length l' + 1) + -1) = true)
    by (apply Z.leb_le; lia).
  assert (H2 : (Z.of_nat (length l' + 1) + -1 <? Z.of_nat (length l' + 1))
               = true) by (apply Z.ltb_lt; lia).
  rewrite H1, H2. cbn [andb].
  replace (Z.to_nat (Z.of_nat (length l' + 1) + -1)) with (length l') by lia.
  rewrite nth_error_app2 by lia. by rewrite Nat.sub_diag.
Qed.

Lemma iloc_empty {A} i c : iloc (@nil A) i c = Raise IndexError c [].
Proof.
  unfold iloc. cbn [length].
  destruct ((0 <=? (if i <? 0 then Z.of_nat 0 + i else i))
            && ((if i <? 0 then Z.of_nat 0 + i else i) <? Z.of_nat 0)) eqn:E;
    [|reflexivity].
  apply andb_true_iff in E as [E1 E2].
  apply Z.leb_le in E1. apply Z.ltb_lt in E2.
  destruct (i <? 0) eqn:Ei; lia.
Qed.

(** A [pick] of three words whose amount and strike are numbers, on a side
    of the chain that has rows: the strike text equals no row, so the row
    read is the last one. *)
Lemma call_pick_run c args d st ut sdt a k row g :
  pick args = [st; ut; sdt] ->
  amount_value py_float (amount_arg args) = Some a ->
  last (pick_column sdt c) = Some row ->
  py_float st = Some k ->
  greeks c !! "Portfolio" = Some g ->
  let sd := if String.eqb sdt "Put" then -1 else 1 in
  let r := add_hedge_option (current_price c) (row_iv row) k
             (years_to_expiry d) sd in
  call_pick add_hedge_option py_float (Some args) d c
  = Ret tt (picked st ut sdt (amount_text (amount_arg args)) a r g c)
      [GreeksCall (current_price c) (row_iv row) k (years_to_expiry d) sd].
Proof.
  intros Hw Ha Hrow Hk Hg sd r. unfold call_pick. rewrite Hw.
  unfold float_of_amount, float_of_pyval, hedge_model_add_hedge_option,
    amount_value, amount_text, pick_column in *.
  unfold bind at 1. unfold modify at 1. unfold bind at 1. unfold modify at 1.
  unfold bind at 1. unfold modify at 1. unfold bind at 1.
  assert (Hsd : ((if String.eqb sdt "Put" then -1 else 1) =? -1)
                = String.eqb sdt "Put") by (by destruct (String.eqb sdt "Put")).
  destruct (amount_arg args) as [s|].
  - rewrite Ha. unfold_m. cbn. rewrite find_strike_text, Hsd.
    rewrite (iloc_last _ row) by done. cbn. rewrite Hk. cbn.
    fold sd. fold r. destruct r as [[dl gm] vg] eqn:Er. cbn.
    rewrite Hg. cbn. look. cbn. look. cbn.
    unfold picked, write_greeks, set_greeks. cbn.
    by rewrite !insert_insert_eq.
  - injection Ha as <-. unfold_m. cbn. rewrite find_strike_text, Hsd.
    rewrite (iloc_last _ row) by done. cbn. rewrite Hk. cbn.
    fold sd. fold r. destruct r as [[dl gm] vg] eqn:Er. cbn.
    rewrite Hg. cbn. look. cbn. look. cbn.
    unfold picked, write_greeks, set_greeks. cbn.
    by rewrite !insert_insert_eq.
Qed.

Lemma call_pick_raise_keeps_greeks c ns d :
  returns (call_pick add_hedge_option py_float ns d c) = false ->
  greeks (final (call_pick add_hedge_option py_float ns d c)) = greeks c.
Proof.
  destruct ns as [args|]; [|discriminate]. unfold call_pick.
  destruct (pick args) as [|st [|ut [|sdt [|]]]]; try reflexivity.
  unfold float_of_amount, float_of_pyval, hedge_model_add_hedge_option, iloc.
  unfold_m. cbn.
  repeat (case_step; cbn; look; try discriminate); reflexivity.
Qed.

(** X2: on a reachable controller, a [pick] of three words whose amount and
    strike are numbers returns whenever the chosen side of the chain has
    rows, which the calls always have.  It calls the calculator once, with
    the volatility of the last row of that side, and leaves the controller
    with the new position text, signs, amount, strike text and Portfolio
    Greeks. *)
Theorem pick_reads_last_row c args d st ut sdt a k :
  reachable add_hedge_option calc_hedge py_float c ->
  pick args = [st; ut; sdt] ->
  amount_value py_float (amount_arg args) = Some a ->
  py_float st = Some k ->
  (String.eqb sdt "Put" = false -> pick_column sdt c ≠ []) ∧
  (pick_column sdt c ≠ [] ->
   exists row g,
     last (pick_column sdt c) = Some row ∧
     greeks c !! "Portfolio" = Some g ∧
     let sd := if String.eqb sdt "Put" then -1 else 1 in
     let r := add_hedge_option (current_price c) (row_iv row) k
                (years_to_expiry d) sd in
     call_pick add_hedge_option py_float (Some args) d c
     = Ret tt (picked st ut sdt (amount_text (amount_arg args)) a r g c)
         [GreeksCall (current_price c) (row_iv row) k (years_to_expiry d) sd]).
Proof.
  intros Hr Hw Ha Hk. split.
  - intros Hs. unfold pick_column. rewrite Hs.
    by apply (reachable_calls_nonempty c).
  - intros Hcol.
    destruct (reachable_well_formed _ _ _ c Hr) as [([g Hg] & _) _].
    destruct (last (pick_column sdt c)) as [row|] eqn:Hrow.
    + exists row, g. split_and!; try done. by apply call_pick_run.
    + apply last_None in Hrow. done.
Qed.

(** X3: the Portfolio Greeks are written all at once or not at all: a
    [pick] that raises leaves every Greeks entry and every leg as it was. *)
Theorem pick_raise_writes_no_greeks c ns d :
  returns (call_pick add_hedge_option py_float ns d c) = false ->
  greeks (final (call_pick add_hedge_option py_float ns d c)) = greeks c ∧
  options (final (call_pick add_hedge_option py_float ns d c)) = options c.
Proof.
  intros H. split; [by apply call_pick_raise_keeps_greeks|].
  by destruct (call_pick_frame add_hedge_option py_float ns d c) as (Ho & _).
Qed.

(** X4: how [pick] fails.  Other than three words: [ValueError], nothing
    written.  An amount that is no number: [ValueError], after the position
    text, the underlying sign and the side were overwritten.  A side of the
    chain without rows: [IndexError], after the amount and the strike text
    were overwritten too; likewise [ValueError] for a strike that is no
    number.  Nothing is printed in any of these cases. *)
Theorem pick_failures c args d :
  (length (pick args) ≠ 3%nat ->
   call_pick add_hedge_option py_float (Some args) d c = Raise ValueError c []) ∧
  (forall st ut sdt,
     pick args = [st; ut; sdt] ->
     let text := ut ++ " " ++ sdt ++ " " ++ amount_text (amount_arg args)
                 ++ " @ " ++ st in
     let c1 := set_side (if String.eqb sdt "Put" then "Put" else "Call")
                 (set_underlying (if String.eqb ut "Short" then -1 else 1)
                    (set_underlying_asset_position text c)) in
     (amount_value py_float (amount_arg args) = None ->
      call_pick add_hedge_option py_float (Some args) d c
      = Raise ValueError c1 []) ∧
     (forall a,
        amount_value py_float (amount_arg args) = Some a ->
        let c2 := set_strike (PyStr st) (set_amount a c1) in
        (pick_column sdt c = [] ->
         call_pick add_hedge_option py_float (Some args) d c
         = Raise IndexError c2 []) ∧
        (pick_column sdt c ≠ [] -> py_float st = None ->
         call_pick add_hedge_option py_float (Some args) d c
         = Raise ValueError c2 []))).
Proof.
  split.
  - intros Hlen. unfold call_pick.
    destruct (pick args) as [|st [|ut [|sdt [|]]]]; try reflexivity.
    by cbn in Hlen.
  - intros st ut sdt Hw text c1.
    assert (Hsd : ((if String.eqb sdt "Put" then -1 else 1) =? -1)
                  = String.eqb sdt "Put") by (by destruct (String.eqb sdt "Put")).
    split.
    + intros Ha. unfold call_pick. rewrite Hw.
      unfold float_of_amount, amount_value, amount_text in *.
      destruct (amount_arg args) as [s|]; [|discriminate].
      unfold_m. cbn. by rewrite Ha.
    + intros a Ha c2. split.
      * intros Hcol. unfold call_pick. rewrite Hw.
        unfold float_of_amount, amount_value, amount_text, pick_column in *.
        destruct (amount_arg args) as [s|].
        -- unfold_m. cbn. rewrite Ha. cbn. rewrite Hsd, Hcol.
           by rewrite iloc_empty.
        -- injection Ha as <-. unfold_m. cbn. rewrite Hsd, Hcol.
           by rewrite iloc_empty.
      * intros Hcol Hk. unfold call_pick. rewrite Hw.
        destruct (last (pick_column sdt c)) as [row|] eqn:Hrow;
          [|by apply last_None in Hrow].
        unfold float_of_amount, float_of_pyval, amount_value, amount_text,
          pick_column in *.
        destruct (amount_arg args) as [s|].
        -- unfold_m. cbn. rewrite Ha. cbn. rewrite find_strike_text, Hsd.
           rewrite (iloc_last _ row) by done. cbn. by rewrite Hk.
        -- injection Ha as <-. unfold_m. cbn. rewrite find_strike_text, Hsd.
           rewrite (iloc_last _ row) by done. cbn. by rewrite Hk.
Qed.

(** X5: [plot] after a [pick] that got through hands the renderer the sign
    of that pick (-1 for Short, +1 for anything else), together with the
    spot price, ticker and expiry of the constructor and the two slots as
    they are. *)
Theorem plot_after_pick c args d st ut sdt a k :
  reachable add_hedge_option calc_hedge py_float c ->
  pick args = [st; ut; sdt] ->
  amount_value py_float (amount_arg args) = Some a ->
  py_float st = Some k ->
  pick_column sdt c ≠ [] ->
  let c' := final (call_pick add_hedge_option py_float (Some args) d c) in
  exists la lb,
    options c !! "Option A" = Some la ∧ options c !! "Option B" = Some lb ∧
    trace (call_plot (Some tt) c')
    = [PlotPayoff (current_price c) [la; lb]
         (if String.eqb ut "Short" then -1 else 1) (ticker c) (expiration c)].
Proof.
  intros Hr Hw Ha Hk Hcol c'.
  destruct (reachable_well_formed _ _ _ c Hr)
    as [([g Hg] & _ & _ & [la Hla] & [lb Hlb]) _].
  destruct (last (pick_column sdt c)) as [row|] eqn:Hrow;
    [|by apply last_None in Hrow].
  exists la, lb. split_and!; try done. subst c'.
  rewrite (call_pick_run c args d st ut sdt a k row g) by done.
  cbn [final]. by rewrite (call_plot_trace _ la lb).
Qed.

(** ** More on [rmv] *)

Lemma refreshed_fields c :
  underlying_asset_position (refreshed c) = underlying_asset_position c ∧
  underlying (refreshed c) = underlying c ∧ side (refreshed c) = side c ∧
  amount (refreshed c) = amount c ∧ strike (refreshed c) = strike c.
Proof. unfold refreshed. by destruct (_ && _). Qed.

Lemma stored_legs c a b :
  options c !! "Option A" = Some a -> options c !! "Option B" = Some b ->
  leg_in c "Option A" = true ∨ leg_in c "Option B" = true ->
  leg_truthy a || leg_truthy b = true.
Proof.
  unfold leg_in. intros -> ->. intros [-> | ->]; [done|].
  by destruct (leg_truthy a).
Qed.

(** X6: on a reachable controller that holds a leg, [rmv <name>] for a key
    of [self.options] returns with the leg and the Greeks of that name both
    emptied, and every other entry of the two dictionaries as it was. *)
Theorem rmv_named_clears_leg_and_greeks c ns ws :
  reachable add_hedge_option calc_hedge py_float c ->
  leg_in c "Option A" = true ∨ leg_in c "Option B" = true ->
  all ns = false -> option_words ns = Some ws ->
  contains (options c) (String.concat " " ws) = true ->
  let name := String.concat " " ws in
  let o := call_rmv (Some ns) c in
  returns o = true ∧
  options (final o) !! name = Some None ∧
  greeks (final o) !! name = Some ∅ ∧
  (forall k, k ≠ name ->
     options (final o) !! k = options c !! k ∧
     greeks (final o) !! k = greeks c !! k).
Proof.
  intros Hr Hleg Hall Hws Hin name o.
  destruct (reachable_well_formed _ _ _ c Hr)
    as [(_ & _ & _ & [a Ha] & [b Hb]) _].
  destruct (call_rmv_named_run ns ws c a b Ha Hb (stored_legs c a b Ha Hb Hleg)
              Hall Hws Hin) as ([out Hrun] & Ho & Hg).
  subst o. rewrite Hrun. cbn [returns final]. split_and!; try done.
  intros k Hk. rewrite refreshed_options, refreshed_greeks. cbn.
  fold name. by look.
Qed.

(** X7: an [rmv] that removes nothing leaves the controller as it was.
    With no leg stored it prints the add-first guidance whatever the
    arguments, [--all] included; for a name that is no key of
    [self.options] it prints that the name is not an option, then the
    positions; with neither a name nor [--all] it raises [TypeError]; and a
    command line that does not parse gets the nothing-selected message. *)
Theorem rmv_rejections c :
  reachable add_hedge_option calc_hedge py_float c ->
  call_rmv None c = Ret tt c [Print msg_nothing_selected] ∧
  (leg_in c "Option A" = false -> leg_in c "Option B" = false ->
   forall ns, call_rmv (Some ns) c = Ret tt c [Print msg_add_options]) ∧
  (leg_in c "Option A" = true ∨ leg_in c "Option B" = true ->
   forall ns,
     all ns = false ->
     (option_words ns = None -> call_rmv (Some ns) c = Raise TypeError c []) ∧
     (forall ws,
        option_words ns = Some ws ->
        contains (options c) (String.concat " " ws) = false ->
        call_rmv (Some ns) c
        = Ret tt c [Print (msg_not_an_option (String.concat " " ws));
                    PositionsTable (positions_of (options c)); Print ""])).
Proof.
  intros Hr.
  destruct (reachable_well_formed _ _ _ c Hr)
    as [(_ & _ & _ & [a Ha] & [b Hb]) _].
  split_and!; [reflexivity| |].
  - intros HA HB ns. unfold leg_in in HA, HB. rewrite Ha in HA. rewrite Hb in HB.
    destruct a, b; try discriminate. by apply call_rmv_no_leg.
  - intros Hleg ns Hall.
    pose proof (stored_legs c a b Ha Hb Hleg) as Hsome.
    assert (Hnone : negb (leg_truthy a) && negb (leg_truthy b) = false)
      by (destruct (leg_truthy a), (leg_truthy b); done).
    split.
    + intros Hws. unfold call_rmv. unfold bind at 1.
      rewrite (no_leg_run c a b) by done. rewrite Hnone, Hall, Hws.
      reflexivity.
    + intros ws Hws Hin. unfold call_rmv. unfold bind at 1.
      rewrite (no_leg_run c a b) by done. rewrite Hnone, Hall, Hws.
      unfold_m. cbn. rewrite Hin. cbn.
      unfold some_leg. unfold_m. rewrite Ha. cbn.
      destruct (leg_truthy a); cbn; [reflexivity|].
      rewrite Hb. cbn. cbn in Hsome. by rewrite Hsome.
Qed.


(** ** More on [add] *)

(** X9: an [add] that stores a leg returns, puts it in the first slot
    without a Delta (Option A before Option B), and touches nothing else:
    the other entries of the two dictionaries, the Portfolio Greeks among
    them, and the position set by [pick] are as they were. *)
Theorem add_touches_one_slot c ns d row slot :
  reachable add_hedge_option calc_hedge py_float c ->
  greeks_in c "Portfolio" = true ->
  nth_error (options_list ns c) (identifier ns) = Some row ->
  free_slot c = Some slot ->
  let o := call_add add_hedge_option calc_hedge (Some ns) d c in
  returns o = true ∧
  slot = (if delta_in c "Option A" then "Option B" else "Option A") ∧
  options (final o) !! slot = Some (Some (leg_of ns row)) ∧
  delta_in (final o) slot = true ∧
  (forall k, k ≠ slot ->
     options (final o) !! k = options c !! k ∧
     greeks (final o) !! k = greeks c !! k) ∧
  underlying_asset_position (final o) = underlying_asset_position c ∧
  underlying (final o) = underlying c ∧ side (final o) = side c ∧
  amount (final o) = amount c ∧ strike (final o) = strike c.
Proof.
  intros Hr HPt Hrow Hfree o. subst o.
  destruct (reachable_well_formed _ _ _ c Hr)
    as [([gP HP] & [gA HA] & [gB HB] & _) _].
  unfold greeks_in in HPt. rewrite HP in HPt.
  rewrite (call_add_run _ _ _ _ _ gP gA gB row) by done. cbv zeta.
  rewrite Hfree. cbn [returns final].
  destruct (refreshed_fields
              (with_leg slot (leg_of ns row) (default ∅ (greeks c !! slot))
                 (add_hedge_option (current_price c) (row_iv row)
                    (row_strike row) (years_to_expiry d)
                    (if put ns then -1 else 1)) c))
    as (F1 & F2 & F3 & F4 & F5).
  rewrite F1, F2, F3, F4, F5, refreshed_options, refreshed_greeks,
    refreshed_delta_in, with_leg_options_same, with_leg_delta_in.
  split_and!; try done.
  - unfold free_slot in Hfree. destruct (delta_in c "Option A"); cbn in Hfree.
    + destruct (negb (delta_in c "Option B")); by inversion Hfree.
    + by inversion Hfree.
  - intros k Hk. by rewrite with_leg_options_other, with_leg_greeks_other.
Qed.

(** ** The shape of the Greeks *)

Lemma write_greeks_shape r g : greeks_shape g -> greeks_shape (write_greeks r g).
Proof.
  intros H. right. unfold write_greeks. rewrite !dom_insert_L.
  destruct H as [-> | ->]; [rewrite dom_empty_L|]; set_solver.
Qed.

Lemma greeks_shape_insert (m : gmap string (gmap string Q)) slot g' :
  (forall s g, m !! s = Some g -> greeks_shape g) -> greeks_shape g' ->
  forall s g, <[slot := g']> m !! s = Some g -> greeks_shape g.
Proof.
  intros Hm Hg' s g [[_ <-] | [_ H]]%lookup_insert_Some; [done|].
  by apply (Hm s).
Qed.

Lemma call_pick_greeks_cases c ns d :
  let o := call_pick add_hedge_option py_float ns d c in
  greeks (final o) = greeks c ∨
  exists g r,
    greeks c !! "Portfolio" = Some g ∧
    greeks (final o) = <["Portfolio" := write_greeks r g]> (greeks c).
Proof.
  cbv zeta. destruct ns as [args|]; [|by left]. unfold call_pick.
  destruct (pick args) as [|st [|ut [|sdt [|]]]]; try (by left).
  unfold float_of_amount, float_of_pyval, hedge_model_add_hedge_option, iloc.
  unfold_m. cbn.
  repeat (case_step; cbn; look).
  all: first
         [ left; reflexivity
         | right; eexists _, (_, _, _);
           split; [first [eassumption | reflexivity]|];
           unfold write_greeks; cbn; by rewrite !insert_insert_eq ].
Qed.

Lemma call_pick_shaped ns d c :
  greeks_shaped c ->
  greeks_shaped (final (call_pick add_hedge_option py_float ns d c)).
Proof.
  intros Hc. unfold greeks_shaped.
  destruct (call_pick_greeks_cases c ns d) as [-> | (g & r & Hg & ->)];
    [exact Hc|].
  apply greeks_shape_insert; [exact Hc|].
  apply write_greeks_shape. by apply (Hc "Portfolio").
Qed.

Lemma with_leg_shaped slot opt r c :
  greeks_shaped c ->
  greeks_shaped (with_leg slot opt (default ∅ (greeks c !! slot)) r c).
Proof.
  intros Hc. unfold greeks_shaped, with_leg. cbn.
  apply greeks_shape_insert; [exact Hc|].
  apply (write_greeks_shape r).
  destruct (greeks c !! slot) as [g|] eqn:Hg; [by apply (Hc slot) | by left].
Qed.

Lemma call_add_shaped ns d c :
  well_formed c -> greeks_shaped c ->
  greeks_shaped (final (call_add add_hedge_option calc_hedge ns d c)).
Proof.
  intros [([gP HP] & [gA HA] & [gB HB] & _) _] Hc.
  destruct ns as [ns|]; [|exact Hc].
  destruct (truthy gP) eqn:HPt;
    [|by rewrite (call_add_no_portfolio _ _ _ _ _ gP)].
  destruct (nth_error (options_list ns c) (identifier ns)) as [row|] eqn:Hrow;
    [|by rewrite (call_add_out_of_range _ _ _ _ _ gP)].
  rewrite (call_add_run _ _ _ _ _ gP gA gB row) by done. cbv zeta.
  destruct (free_slot c) as [slot|]; cbn [final]; [|exact Hc].
  unfold greeks_shaped. rewrite refreshed_greeks.
  by apply with_leg_shaped.
Qed.

Lemma call_rmv_shaped ns c :
  greeks_shaped c -> greeks_shaped (final (call_rmv ns c)).
Proof.
  revert c. change (preserves (keeps greeks_shaped) (call_rmv ns)).
  unfold call_rmv, update_runtime_choices, options_setitem.
  repeat first
    [ apply preserves_modify; intros c Hc slot g; cbn;
      first [ exact (Hc slot g)
            | apply greeks_shape_insert; [exact Hc | by left] ]
    | frame_step ].
Qed.

Lemma session_shaped cmds c :
  well_formed c -> greeks_shaped c ->
  greeks_shaped (session add_hedge_option calc_hedge py_float c cmds).
Proof.
  revert c. induction cmds as [|cmd cmds IH]; intros c Hwf Hc; [exact Hc|].
  cbn. apply IH; [by apply step_well_formed|].
  unfold step. destruct cmd; cbn [run].
  - by apply call_add_shaped.
  - by apply call_rmv_shaped.
  - by apply call_pick_shaped.
  - by rewrite call_sop_final.
  - by rewrite call_plot_final.
Qed.

Lemma init_shaped tk exp chain_calls chain_puts price inter c :
  init tk exp chain_calls chain_puts price inter = Some c -> greeks_shaped c.
Proof.
  unfold init. destruct chain_calls; [discriminate|]. intros [= <-].
  intros slot g. cbn. intros H.
  apply lookup_insert_Some in H as [[_ <-] | [_ H]]; [by left|].
  apply lookup_insert_Some in H as [[_ <-] | [_ H]]; [by left|].
  apply lookup_singleton_Some in H as [_ <-]. by left.
Qed.

Lemma reachable_shaped c :
  reachable add_hedge_option calc_hedge py_float c -> greeks_shaped c.
Proof.
  intros (tk & exp & cs & ps & price & inter & c0 & cmds & Hinit & <-).
  apply session_shaped; [by eapply init_well_formed | by eapply init_shaped].
Qed.

Lemma greeks_shape_tests g :
  greeks_shape g -> truthy g = contains g "Delta".
Proof.
  unfold truthy, contains. intros [-> | Hd].
  - by rewrite bool_decide_eq_true_2.
  - assert (Hin : "Delta" ∈ dom g) by (rewrite Hd; set_solver).
    apply elem_of_dom in Hin as [x Hx]. rewrite Hx.
    rewrite bool_decide_eq_false_2; [done|]. intros ->. done.
Qed.

(** X10: in a reachable controller every Greeks entry is either empty or
    holds exactly Delta, Gamma and Vega; so the two tests the code uses, the
    truth value of the entry ([add]) and the presence of Delta ([add],
    [sop], the help), always agree. *)
Theorem greeks_entries_are_whole c :
  reachable add_hedge_option calc_hedge py_float c ->
  (forall slot g,
     greeks c !! slot = Some g ->
     g = ∅ ∨ dom g = ({[ "Delta"; "Gamma"; "Vega" ]} : gset string)) ∧
  (forall slot, greeks_in c slot = delta_in c slot).
Proof.
  intros Hr. pose proof (reachable_shaped c Hr) as Hs. split; [exact Hs|].
  intros slot. unfold greeks_in, delta_in.
  destruct (greeks c !! slot) as [g|] eqn:Hg; [|done].
  apply greeks_shape_tests. by apply (Hs slot).
Qed.

(** ** The positions table *)

Lemma run_keeps_portfolio_leg_empty cmd :
  preserves (keeps portfolio_leg_empty)
    (run add_hedge_option calc_hedge py_float cmd).
Proof.
  destruct cmd; cbn [run];
    unfold call_add, call_rmv, call_pick, call_sop, call_plot, store_leg,
      finish_add, add_and_show_greeks, hedge_model_add_hedge_option,
      show_calculated_hedge, update_runtime_choices, float_of_amount,
      float_of_pyval, greeks_setitem, options_setitem;
    repeat first
      [ apply preserves_modify; intros c' Hc' l'; cbn;
        first [ exact (Hc' l')
              | rewrite lookup_insert_ne by done; exact (Hc' l')
              | intros [[_ ?] | [_ H]]%lookup_insert_Some;
                [done | exact (Hc' l' H)]
              | rewrite lookup_insert_ne by done;
                rewrite lookup_singleton_ne by done; discriminate ]
      | frame_step ].
Qed.

Lemma reachable_portfolio_leg_empty c :
  reachable add_hedge_option calc_hedge py_float c -> portfolio_leg_empty c.
Proof.
  intros (tk & exp & cs & ps & price & inter & c0 & cmds & Hinit & <-).
  assert (H0 : portfolio_leg_empty c0).
  { unfold init in Hinit. destruct cs; [discriminate|]. injection Hinit as <-.
    intros l H. vm_compute in H. discriminate H. }
  clear Hinit. revert c0 H0.
  induction cmds as [|cmd cmds IH]; intros c0 H0; [exact H0|].
  cbn. apply IH. by apply (run_keeps_portfolio_leg_empty cmd c0).
Qed.

(** X11: in a reachable controller the Portfolio key of [self.options]
    never holds a leg, so the positions table printed by [add], [rmv] and
    [sop] has exactly one row per stored option leg, two at most. *)
Theorem positions_table_rows c :
  reachable add_hedge_option calc_hedge py_float c ->
  portfolio_leg_empty c ∧
  length (positions_of (options c))
  = (Nat.b2n (leg_in c "Option A") + Nat.b2n (leg_in c "Option B"))%nat ∧
  (length (positions_of (options c)) <= 2)%nat.
Proof.
  intros Hr. pose proof (reachable_portfolio_leg_empty c Hr) as Hp.
  assert (Hlen : length (positions_of (options c))
                 = (Nat.b2n (leg_in c "Option A")
                    + Nat.b2n (leg_in c "Option B"))%nat).
  { unfold positions_of, leg_in. cbn [flat_map].
    destruct (options c !! "Portfolio") as [[l|]|] eqn:HP;
      [by destruct (Hp l)| |];
      destruct (options c !! "Option A") as [[la|]|];
      destruct (options c !! "Option B") as [[lb|]|]; reflexivity. }
  split_and!; [exact Hp | exact Hlen |].
  rewrite Hlen. destruct (leg_in c "Option A"), (leg_in c "Option B"); cbn; lia.
Qed.

(** ** Completions *)

Lemma update_keeps_offline :
  preserves (keeps no_choices_offline) update_runtime_choices.
Proof.
  intros c Hc. rewrite update_runtime_choices_run. cbn [final].
  unfold refreshed, no_choices_offline in *.
  destruct (negb (bool_decide (options c = ∅))); cbn [andb]; [|exact Hc].
  destruct (interactive c) eqn:Hi; [cbn; by rewrite Hi | by intros _; apply Hc].
Qed.

Lemma run_keeps_offline cmd :
  preserves (keeps no_choices_offline)
    (run add_hedge_option calc_hedge py_float cmd).
Proof.
  destruct cmd; cbn [run];
    unfold call_add, call_rmv, call_pick, call_sop, call_plot, store_leg,
      finish_add, add_and_show_greeks, hedge_model_add_hedge_option,
      show_calculated_hedge, float_of_amount,
      float_of_pyval, greeks_setitem, options_setitem;
    repeat first
      [ apply update_keeps_offline
      | apply preserves_modify; intros c Hc; exact Hc
      | frame_step ].
Qed.

(** X12: a session without prompt toolkit never gets completions for
    [rmv]: whatever commands are run, [self.choices["rmv"]] is never
    written. *)
Theorem no_completions_offline c :
  reachable add_hedge_option calc_hedge py_float c ->
  interactive c = false -> choices_rmv c = None.
Proof.
  intros (tk & exp & cs & ps & price & inter & c0 & cmds & Hinit & <-).
  assert (H0 : no_choices_offline c0).
  { unfold init in Hinit. destruct cs; [discriminate|]. by injection Hinit as <-. }
  clear Hinit. revert c0 H0.
  induction cmds as [|cmd cmds IH]; intros c0 H0; [exact H0|].
  cbn. apply IH. by apply (run_keeps_offline cmd c0).
Qed.

(** ** The help *)

Lemma delta_in_either_run c gA gB :
  greeks c !! "Option A" = Some gA -> greeks c !! "Option B" = Some gB ->
  delta_in_either c
  = Ret (delta_in c "Option A" || delta_in c "Option B") c [].
Proof.
  intros HA HB. unfold delta_in_either, delta_in. unfold_m. rewrite HA, HB. cbn.
  by destruct (contains gA "Delta").
Qed.

Lemma print_help_run c gP gA gB :
  greeks c !! "Portfolio" = Some gP ->
  greeks c !! "Option A" = Some gA -> greeks c !! "Option B" = Some gB ->
  print_help c
  = Ret tt c
      [Print (help_text c
                (if delta_in c "Portfolio" then "" else "[unvl]")
                (if delta_in c "Portfolio" then "" else "[/unvl]")
                (if delta_in c "Option A" || delta_in c "Option B"
                 then "" else "[unvl]")
                (if delta_in c "Option A" || delta_in c "Option B"
                 then "" else "[/unvl]"))].
Proof.
  intros HP HA HB. unfold print_help.
  unfold bind at 1. unfold get at 1. unfold bind at 1. unfold getitem at 1.
  rewrite HP. unfold ret at 1. unfold bind at 1. unfold getitem at 1.
  rewrite HP. unfold ret at 1. unfold bind at 1.
  rewrite (delta_in_either_run c gA gB) by done. unfold bind at 1.
  rewrite (delta_in_either_run c gA gB) by done.
  unfold emit, delta_in. rewrite HP. reflexivity.
Qed.

(** X13: on a reachable controller [print_help] prints its text and
    changes nothing.  The [add] line is greyed out exactly when the
    Portfolio Greeks are absent, which is exactly when an [add] is answered
    with the pick-first message; and the [rmv], [sop] and [plot] lines are
    never greyed out while a leg is stored. *)
Theorem print_help_marks c :
  reachable add_hedge_option calc_hedge py_float c ->
  print_help c
  = Ret tt c
      [Print (help_text c
                (if greeks_in c "Portfolio" then "" else "[unvl]")
                (if greeks_in c "Portfolio" then "" else "[/unvl]")
                (if delta_in c "Option A" || delta_in c "Option B"
                 then "" else "[unvl]")
                (if delta_in c "Option A" || delta_in c "Option B"
                 then "" else "[/unvl]"))] ∧
  (forall a d,
     trace (call_add add_hedge_option calc_hedge (Some a) d c)
       = [Print msg_pick_first]
     <-> greeks_in c "Portfolio" = false) ∧
  (leg_in c "Option A" = true ∨ leg_in c "Option B" = true ->
   delta_in c "Option A" || delta_in c "Option B" = true).
Proof.
  intros Hr.
  destruct (reachable_well_formed _ _ _ c Hr)
    as [([gP HP] & [gA HA] & [gB HB] & _) [HlA HlB]].
  pose proof (reachable_shaped c Hr) as Hs.
  assert (Hg : greeks_in c "Portfolio" = delta_in c "Portfolio").
  { unfold greeks_in, delta_in. rewrite HP. apply greeks_shape_tests.
    by apply (Hs "Portfolio"). }
  split_and!.
  - rewrite Hg. by apply (print_help_run c gP gA gB).
  - intros a d. unfold greeks_in. rewrite HP.
    destruct (truthy gP) eqn:HPt.
    + split; [|discriminate].
      destruct (nth_error (options_list a c) (identifier a)) as [row|] eqn:Hrow.
      * rewrite (call_add_run _ _ _ _ _ gP gA gB row) by done. cbv zeta.
        destruct (free_slot c); cbn [trace]; discriminate.
      * rewrite (call_add_out_of_range _ _ _ _ _ gP) by done. discriminate.
    + by rewrite (call_add_no_portfolio _ _ _ _ _ gP).
  - intros [H | H]; [rewrite (HlA H) | rewrite (HlB H)];
      [done | by rewrite orb_true_r].
Qed.

(** ** A [pick] after a [pick] *)

Global Instance beside_pick_preorder : PreOrder beside_pick.
Proof.
  split.
  - intros c. unfold beside_pick. by split_and!.
  - intros c1 c2 c3 (M1 & O1 & R1 & G1) (M2 & O2 & R2 & G2).
    unfold beside_pick. split_and!; [by etrans | congruence | congruence |].
    intros slot Hs. by rewrite G2, G1.
Qed.

Lemma greeks_setitem_beside_pick key v :
  preserves beside_pick (greeks_setitem "Portfolio" key v).
Proof.
  intros c. unfold_m. destruct (greeks c !! "Portfolio") as [g|] eqn:Hg; cbn.
  - unfold beside_pick, market_frame; cbn. split_and!; try done.
    intros slot Hs. by look.
  - reflexivity.
Qed.

Lemma call_pick_beside_pick ns d :
  preserves beside_pick (call_pick add_hedge_option py_float ns d).
Proof.
  unfold call_pick, float_of_amount, float_of_pyval,
    hedge_model_add_hedge_option.
  repeat first
    [ apply greeks_setitem_beside_pick
    | apply preserves_modify; intros c; unfold beside_pick, market_frame; cbn;
      by split_and!
    | frame_step ].
Qed.

Lemma write_greeks_whole r g :
  greeks_shape g -> write_greeks r g = write_greeks r ∅.
Proof.
  intros Hg. apply map_eq. intros i. unfold write_greeks.
  destruct (decide (i = "Vega")) as [-> | HV]; [by look|].
  destruct (decide (i = "Gamma")) as [-> | HG]; [by look|].
  destruct (decide (i = "Delta")) as [-> | HD]; [by look|].
  look. rewrite lookup_empty. destruct Hg as [-> | Hd]; [done|].
  apply not_elem_of_dom. rewrite Hd.
  rewrite !elem_of_union, !elem_of_singleton. by intros [[? | ?] | ?].
Qed.

Lemma pick_fields_beside_pick text u s a k G c c1 :
  beside_pick c c1 ->
  set_greeks G
    (set_strike k
       (set_amount a
          (set_side s
             (set_underlying u (set_underlying_asset_position text c1)))))
  = set_greeks G
      (set_strike k
         (set_amount a
            (set_side s
               (set_underlying u (set_underlying_asset_position text c))))).
Proof.
  intros ((E1 & E2 & E3 & E4 & E5 & E6) & E7 & E8 & _).
  destruct c, c1. cbn in *. by subst.
Qed.

Lemma picked_beside_pick st ut sdt t a r g g1 c c1 :
  beside_pick c c1 -> greeks_shape g -> greeks_shape g1 ->
  picked st ut sdt t a r g1 c1 = picked st ut sdt t a r g c.
Proof.
  intros Hb Hg Hg1.
  assert (HG : <["Portfolio" := write_greeks r g1]> (greeks c1)
               = <["Portfolio" := write_greeks r g]> (greeks c)).
  { rewrite (write_greeks_whole r g), (write_greeks_whole r g1) by done.
    apply map_eq. intros i.
    destruct (decide (i = "Portfolio")) as [-> | Hi]; [by look|].
    look. by apply Hb. }
  unfold picked. rewrite HG. by apply pick_fields_beside_pick.
Qed.

(** X14: a [pick] that gets through forgets the [pick] before it.  After
    any earlier [pick], returning or raising half-way, it prints the same,
    calls the calculator with the same arguments and leaves the same
    controller as if the earlier one had never been typed. *)
Theorem pick_forgets_pick c ns1 d1 args d st ut sdt a k :
  reachable add_hedge_option calc_hedge py_float c ->
  pick args = [st; ut; sdt] ->
  amount_value py_float (amount_arg args) = Some a ->
  py_float st = Some k ->
  pick_column sdt c ≠ [] ->
  call_pick add_hedge_option py_float (Some args) d
    (final (call_pick add_hedge_option py_float ns1 d1 c))
  = call_pick add_hedge_option py_float (Some args) d c.
Proof.
  intros Hr Hw Ha Hk Hcol.
  set (c1 := final (call_pick add_hedge_option py_float ns1 d1 c)).
  assert (Hr1 : reachable add_hedge_option calc_hedge py_float c1)
    by apply (reachable_step _ _ _ c (Pick ns1 d1) Hr).
  pose proof (call_pick_beside_pick ns1 d1 c) as Hb. fold c1 in Hb.
  destruct (reachable_well_formed _ _ _ c Hr) as [([g Hg] & _) _].
  destruct (reachable_well_formed _ _ _ c1 Hr1) as [([g1 Hg1] & _) _].
  assert (Hc1 : pick_column sdt c1 = pick_column sdt c).
  { destruct Hb as ((E1 & E2 & _) & _). unfold pick_column.
    by rewrite E1, E2. }
  assert (Hp : current_price c1 = current_price c)
    by (by destruct Hb as ((_ & _ & _ & E & _) & _)).
  destruct (last (pick_column sdt c)) as [row|] eqn:Hrow;
    [|by apply last_None in Hrow].
  rewrite (call_pick_run c1 args d st ut sdt a k row g1)
    by (rewrite ?Hc1; done).
  rewrite (call_pick_run c args d st ut sdt a k row g) by done.
  cbv zeta. rewrite Hp. f_equal.
  apply picked_beside_pick; [exact Hb | |].
  - by apply (reachable_shaped c Hr "Portfolio").
  - by apply (reachable_shaped c1 Hr1 "Portfolio").
Qed.

(** ** The table of [list] *)







(** ** An [add] taken back *)

Lemma free_slot_is_empty c slot :
  reachable add_hedge_option calc_hedge py_float c ->
  free_slot c = Some slot ->
  options c !! slot = Some None ∧ greeks c !! slot = Some ∅.
Proof.
  intros Hr Hfree.
  destruct (reachable_well_formed _ _ _ c Hr)
    as [(_ & HA & HB & Hla & Hlb) [HlA HlB]].
  pose proof (reachable_shaped c Hr) as Hs.
  pose proof (free_slot_no_delta c slot Hfree) as Hnd.
  assert (Hkeys : is_Some (options c !! slot) ∧ is_Some (greeks c !! slot)
                  ∧ (leg_in c slot = true -> delta_in c slot = true))
    by (destruct (free_slot_cases c slot Hfree) as [-> | ->]; by split_and!).
  destruct Hkeys as ([l Hl] & [g Hg] & Hleg). split.
  - rewrite Hl. unfold leg_in in Hleg. rewrite Hl, Hnd in Hleg.
    destruct l as [l|]; [|done]. by discriminate Hleg.
  - rewrite Hg. f_equal.
    pose proof (greeks_shape_tests g (Hs slot g Hg)) as Ht.
    unfold delta_in in Hnd. rewrite Hg in Hnd. rewrite Hnd in Ht.
    unfold truthy in Ht. apply negb_false_iff in Ht.
    by apply bool_decide_eq_true_1 in Ht.
Qed.

(** X16: an [add] taken back.  On a reachable controller, an [add] that
    stores a leg followed by [rmv] of the slot it was stored in returns and
    leaves the two dictionaries exactly as they were before the [add]: the
    slot's leg and Greeks are empty again and every other entry is
    untouched, as is the position set by [pick]. *)
Theorem add_then_rmv_restores c ns d row slot rs ws :
  reachable add_hedge_option calc_hedge py_float c ->
  greeks_in c "Portfolio" = true ->
  nth_error (options_list ns c) (identifier ns) = Some row ->
  free_slot c = Some slot ->
  all rs = false -> option_words rs = Some ws ->
  String.concat " " ws = slot ->
  let o1 := call_add add_hedge_option calc_hedge (Some ns) d c in
  let o2 := call_rmv (Some rs) (final o1) in
  returns o1 = true ∧ returns o2 = true ∧
  leg_in (final o1) slot = true ∧
  options (final o2) = options c ∧ greeks (final o2) = greeks c ∧
  underlying_asset_position (final o2) = underlying_asset_position c ∧
  underlying (final o2) = underlying c ∧ side (final o2) = side c ∧
  amount (final o2) = amount c ∧ strike (final o2) = strike c.
Proof.
  intros Hr HPt Hrow Hfree Hall Hws Hname o1 o2.
  destruct (reachable_well_formed _ _ _ c Hr)
    as [([gP HP] & [gA HA] & [gB HB] & _) _].
  destruct (free_slot_is_empty c slot Hr Hfree) as [Ho Hg].
  unfold greeks_in in HPt. rewrite HP in HPt.
  assert (Hr1 : reachable add_hedge_option calc_hedge py_float (final o1))
    by apply (reachable_step _ _ _ c (Add (Some ns) d) Hr).
  set (w := with_leg slot (leg_of ns row) (default ∅ (greeks c !! slot))
              (add_hedge_option (current_price c) (row_iv row)
                 (row_strike row) (years_to_expiry d)
                 (if put ns then -1 else 1)) c).
  assert (E1 : exists out, o1 = Ret tt (refreshed w) out).
  { subst o1. rewrite (call_add_run _ _ _ _ _ gP gA gB row) by done.
    cbv zeta. rewrite Hfree. by eexists. }
  destruct E1 as [out1 E1]. clearbody o1. subst o1. cbn [final returns] in *.
  assert (Hleg1 : leg_in (refreshed w) slot = true).
  { unfold leg_in. rewrite refreshed_options. unfold w.
    by rewrite with_leg_options_same. }
  destruct (reachable_well_formed _ _ _ _ Hr1)
    as [(_ & _ & _ & [a1 Ha1] & [b1 Hb1]) _].
  assert (Hsome : leg_in (refreshed w) "Option A" = true
                  ∨ leg_in (refreshed w) "Option B" = true)
    by (destruct (free_slot_cases c slot Hfree) as [E | E]; rewrite <- E;
        [by left | by right]).
  assert (Hin : contains (options (refreshed w)) (String.concat " " ws) = true).
  { rewrite Hname. unfold contains. rewrite refreshed_options. unfold w.
    by rewrite with_leg_options_same. }
  destruct (call_rmv_named_run rs ws (refreshed w) a1 b1 Ha1 Hb1
              (stored_legs _ a1 b1 Ha1 Hb1 Hsome) Hall Hws Hin)
    as ([out2 Hrun] & _). rewrite Hname in Hrun.
  subst o2. rewrite Hrun. cbn [final returns].
  set (c2 := set_greeks _ _).
  destruct (refreshed_fields c2) as (F1 & F2 & F3 & F4 & F5).
  destruct (refreshed_fields w) as (G1 & G2 & G3 & G4 & G5).
  rewrite F1, F2, F3, F4, F5, refreshed_options, refreshed_greeks.
  unfold c2. cbn [underlying_asset_position underlying side amount strike
                  options greeks set_greeks set_options].
  rewrite G1, G2, G3, G4, G5, refreshed_options, refreshed_greeks.
  unfold w, with_leg.
  cbn [underlying_asset_position underlying side amount strike
       options greeks set_greeks set_options].
  rewrite !insert_insert_eq.
  split_and!; try done; by apply insert_id.
Qed.

(** ** Every [pick] *)

(** C8: every [pick], returning or raising, leaves the two legs and every
    Greeks entry but the Portfolio one as they were.  On a reachable
    controller, with or without legs stored, a [pick] of three words whose
    amount and strike are numbers returns (for the side Put the chain must
    have puts), calls the calculator once, and leaves under Portfolio
    exactly Delta, Gamma and Vega, each overwritten with what the
    calculator returned for this call. *)
Theorem call_pick_only_portfolio c ns d :
  let o := call_pick add_hedge_option py_float ns d c in
  options (final o) = options c ∧
  greeks (final o) !! "Option A" = greeks c !! "Option A" ∧
  greeks (final o) !! "Option B" = greeks c !! "Option B" ∧
  (forall slot, slot ≠ "Portfolio" ->
     greeks (final o) !! slot = greeks c !! slot) ∧
  (forall args, ns = Some args -> returns o = true ->
   exists st ut sdt iv k g,
     pick args = [st; ut; sdt] ∧ py_float st = Some k ∧
     let sd := if String.eqb sdt "Put" then -1 else 1 in
     let r := add_hedge_option (current_price c) iv k (years_to_expiry d) sd in
     calculator_calls (trace o)
       = [(current_price c, iv, k, years_to_expiry d, sd)] ∧
     greeks (final o) !! "Portfolio" = Some g ∧
     g !! "Delta" = Some (fst (fst r)) ∧
     g !! "Gamma" = Some (snd (fst r)) ∧
     g !! "Vega" = Some (snd r)) ∧
  (forall args st ut sdt a k,
     reachable add_hedge_option calc_hedge py_float c ->
     ns = Some args -> pick args = [st; ut; sdt] ->
     amount_value py_float (amount_arg args) = Some a ->
     py_float st = Some k ->
     (String.eqb sdt "Put" = true -> puts c ≠ []) ->
     exists row g,
       last (pick_column sdt c) = Some row ∧
       let sd := if String.eqb sdt "Put" then -1 else 1 in
       let r := add_hedge_option (current_price c) (row_iv row) k
                  (years_to_expiry d) sd in
       returns o = true ∧
       calculator_calls (trace o)
         = [(current_price c, row_iv row, k, years_to_expiry d, sd)] ∧
       greeks (final o) !! "Portfolio" = Some g ∧
       g !! "Delta" = Some (fst (fst r)) ∧
       g !! "Gamma" = Some (snd (fst r)) ∧
       g !! "Vega" = Some (snd r) ∧
       dom g = ({[ "Delta"; "Gamma"; "Vega" ]} : gset string)).
Proof.
  intros o. destruct (call_pick_frame add_hedge_option py_float ns d c)
    as (Ho & _ & _ & Hg & _).
  fold o in Ho, Hg. split_and!; try done.
  - by apply Hg.
  - by apply Hg.
  - intros args -> Hret. by apply call_pick_overwrites.
  - intros args st ut sdt a k Hr -> Hw Ha Hk Hputs.
    assert (Hcol : pick_column sdt c ≠ []).
    { unfold pick_column. destruct (String.eqb sdt "Put") eqn:Hs;
        [by apply Hputs | by apply reachable_calls_nonempty]. }
    destruct (reachable_well_formed _ _ _ c Hr) as [([g0 Hg0] & _) _].
    pose proof (reachable_shaped c Hr "Portfolio" g0 Hg0) as Hshape.
    destruct (last (pick_column sdt c)) as [row|] eqn:Hrow;
      [|by apply last_None in Hrow].
    exists row. eexists. split; [reflexivity|]. cbv zeta. subst o.
    rewrite (call_pick_run c args d st ut sdt a k row g0) by done.
    cbv zeta. cbn [returns trace final].
    assert (HD : write_greeks
                   (add_hedge_option (current_price c) (row_iv row) k
                      (years_to_expiry d)
                      (if String.eqb sdt "Put" then -1 else 1)) g0
                 !! "Delta"
                 = Some (fst (fst (add_hedge_option (current_price c)
                                     (row_iv row) k (years_to_expiry d)
                                     (if String.eqb sdt "Put" then -1 else 1)))))
      by (unfold write_greeks; by look).
    split_and!.
    + reflexivity.
    + reflexivity.
    + unfold picked. cbn. by look.
    + exact HD.
    + unfold write_greeks. by look.
    + unfold write_greeks. by look.
    + destruct (write_greeks_shape
                  (add_hedge_option (current_price c) (row_iv row) k
                     (years_to_expiry d)
                     (if String.eqb sdt "Put" then -1 else 1)) g0 Hshape)
        as [E | E]; [|exact E].
      rewrite E, lookup_empty in HD. discriminate HD.
Qed.

End More.

(** ** The further properties on the sample session *)

Lemma market_data_never_changes_witness :
  let c := sample_session [pick_100_long_call] in
  sample_reachable c ∧
  (forall cmds,
     market_frame c
       (session sample_add_hedge_option sample_calc_hedge float_of_digits c
          cmds)) ∧
  calls c ≠ [].
Proof.
  intros c.
  assert (Hr : sample_reachable c) by by_sample_session [pick_100_long_call].
  clearbody c.
  split; [exact Hr|].
  exact (market_data_never_changes sample_add_hedge_option sample_calc_hedge
           float_of_digits c Hr).
Defined.

Lemma pick_reads_last_row_witness :
  let c := sample_controller in
  pick_column "Call" c ≠ [] ∧
  exists row g,
    last (pick_column "Call" c) = Some row ∧
    greeks c !! "Portfolio" = Some g ∧
    let sd := if String.eqb "Call" "Put" then -1 else 1 in
    let r := sample_add_hedge_option (current_price c) (row_iv row)
               (inject_Z 999) (years_to_expiry 10) sd in
    call_pick sample_add_hedge_option float_of_digits (Some args_pick_999) 10 c
    = Ret tt
        (picked "999" "Long" "Call" (amount_text (amount_arg args_pick_999))
           (inject_Z 1000) r g c)
        [GreeksCall (current_price c) (row_iv row) (inject_Z 999)
           (years_to_expiry 10) sd].
Proof.
  intros c.
  assert (Hr : sample_reachable c) by by_sample_session (@nil command).
  assert (Hcol : pick_column "Call" c ≠ [])
    by (intros H; vm_compute in H; discriminate H).
  clearbody c.
  split; [exact Hcol|].
  exact (proj2 (pick_reads_last_row sample_add_hedge_option sample_calc_hedge
                  float_of_digits c args_pick_999 10 "999" "Long" "Call"
                  (inject_Z 1000) (inject_Z 999) Hr eq_refl eq_refl eq_refl)
           Hcol).
Defined.

Lemma pick_raise_writes_no_greeks_witness :
  let c := sample_session [pick_100_long_call] in
  let o := call_pick sample_add_hedge_option float_of_digits
             (Some args_pick_abc) 10 c in
  returns o = false ∧ greeks (final o) = greeks c ∧
  options (final o) = options c.
Proof.
  intros c o.
  assert (Hret : returns o = false) by (vm_compute; reflexivity).
  clearbody c.
  split; [exact Hret|].
  exact (pick_raise_writes_no_greeks sample_add_hedge_option float_of_digits c
           (Some args_pick_abc) 10 Hret).
Defined.

Lemma pick_failures_witness :
  let c := sample_controller in
  call_pick sample_add_hedge_option float_of_digits (Some args_pick_word) 10 c
  = Raise ValueError c [] ∧
  call_pick sample_add_hedge_option float_of_digits (Some args_pick_abc) 10 c
  = Raise ValueError
      (set_strike (PyStr "abc")
         (set_amount (inject_Z 1000)
            (set_side "Call"
               (set_underlying 1
                  (set_underlying_asset_position "Long Call 1000 @ abc" c)))))
      [].
Proof.
  intros c.
  destruct (pick_failures sample_add_hedge_option float_of_digits c
              args_pick_word 10) as [Hword _].
  destruct (pick_failures sample_add_hedge_option float_of_digits c
              args_pick_abc 10) as [_ Habc].
  destruct (Habc "abc" "Long" "Call" eq_refl) as [_ Hnum].
  destruct (Hnum (inject_Z 1000) eq_refl) as [_ Hstrike].
  split.
  - apply Hword. cbn. lia.
  - apply Hstrike; [intros H; vm_compute in H; discriminate H | reflexivity].
Defined.

Lemma plot_after_pick_witness :
  let c := sample_session [pick_100_long_call; add_call_long] in
  let c' := final (call_pick sample_add_hedge_option float_of_digits
                     (Some args_pick_short) 10 c) in
  pick_column "Call" c ≠ [] ∧
  exists la lb,
    options c !! "Option A" = Some la ∧ options c !! "Option B" = Some lb ∧
    trace (call_plot (Some tt) c')
    = [PlotPayoff (current_price c) [la; lb]
         (if String.eqb "Short" "Short" then -1 else 1) (ticker c)
         (expiration c)].
Proof.
  intros c c'.
  assert (Hr : sample_reachable c)
    by by_sample_session [pick_100_long_call; add_call_long].
  assert (Hcol : pick_column "Call" c ≠ [])
    by (intros H; vm_compute in H; discriminate H).
  clearbody c.
  split; [exact Hcol|].
  exact (plot_after_pick sample_add_hedge_option sample_calc_hedge
           float_of_digits c args_pick_short 10 "100" "Short" "Call"
           (inject_Z 1000) (inject_Z 100) Hr eq_refl eq_refl eq_refl Hcol).
Defined.

Lemma rmv_named_clears_leg_and_greeks_witness :
  let c := sample_session [pick_100_long_call; add_call_long] in
  let o := call_rmv (Some args_rmv_option_a) c in
  leg_in c "Option A" = true ∧
  returns o = true ∧
  options (final o) !! "Option A" = Some None ∧
  greeks (final o) !! "Option A" = Some ∅ ∧
  (forall k, k ≠ "Option A" ->
     options (final o) !! k = options c !! k ∧
     greeks (final o) !! k = greeks c !! k).
Proof.
  intros c o.
  assert (Hr : sample_reachable c)
    by by_sample_session [pick_100_long_call; add_call_long].
  assert (Hleg : leg_in c "Option A" = true) by (vm_compute; reflexivity).
  assert (Hin : contains (options c) (String.concat " " ["Option"; "A"]) = true)
    by (vm_compute; reflexivity).
  clearbody c.
  split; [exact Hleg|].
  exact (rmv_named_clears_leg_and_greeks sample_add_hedge_option
           sample_calc_hedge float_of_digits c args_rmv_option_a
           ["Option"; "A"] Hr (or_introl Hleg) eq_refl eq_refl Hin).
Defined.

Lemma rmv_rejections_witness :
  let c := sample_session [pick_100_long_call; add_call_long] in
  leg_in c "Option A" = true ∧
  call_rmv None c = Ret tt c [Print msg_nothing_selected] ∧
  call_rmv (Some args_rmv_nothing) c = Raise TypeError c [] ∧
  call_rmv (Some args_rmv_option_c) c
  = Ret tt c [Print (msg_not_an_option (String.concat " " ["Option"; "C"]));
              PositionsTable (positions_of (options c)); Print ""].
Proof.
  intros c.
  assert (Hr : sample_reachable c)
    by by_sample_session [pick_100_long_call; add_call_long].
  assert (Hleg : leg_in c "Option A" = true) by (vm_compute; reflexivity).
  assert (Hin : contains (options c) (String.concat " " ["Option"; "C"])
                = false)
    by (vm_compute; reflexivity).
  destruct (rmv_rejections sample_add_hedge_option sample_calc_hedge
              float_of_digits c Hr) as (Hnone & _ & Hsome).
  clearbody c.
  split; [exact Hleg|]. split; [exact Hnone|]. split.
  - exact (proj1 (Hsome (or_introl Hleg) args_rmv_nothing eq_refl) eq_refl).
  - exact (proj2 (Hsome (or_introl Hleg) args_rmv_option_c eq_refl)
             ["Option"; "C"] eq_refl Hin).
Defined.


Lemma add_touches_one_slot_witness :
  let c := sample_session [pick_100_long_call; add_call_long] in
  let row := ((100 # 1)%Q, (1 # 4)%Q, (6 # 1)%Q) in
  let o := call_add sample_add_hedge_option sample_calc_hedge
             (Some args_put_short) 10 c in
  free_slot c = Some "Option B" ∧
  returns o = true ∧
  "Option B" = (if delta_in c "Option A" then "Option B" else "Option A") ∧
  options (final o) !! "Option B" = Some (Some (leg_of args_put_short row)) ∧
  delta_in (final o) "Option B" = true ∧
  (forall k, k ≠ "Option B" ->
     options (final o) !! k = options c !! k ∧
     greeks (final o) !! k = greeks c !! k) ∧
  underlying_asset_position (final o) = underlying_asset_position c ∧
  underlying (final o) = underlying c ∧ side (final o) = side c ∧
  amount (final o) = amount c ∧ strike (final o) = strike c.
Proof.
  intros c row o.
  assert (Hr : sample_reachable c)
    by by_sample_session [pick_100_long_call; add_call_long].
  assert (Hp : greeks_in c "Portfolio" = true) by (vm_compute; reflexivity).
  assert (Hf : free_slot c = Some "Option B") by (vm_compute; reflexivity).
  assert (Hrow : nth_error (options_list args_put_short c)
                   (identifier args_put_short) = Some row)
    by (vm_compute; reflexivity).
  clearbody c.
  split; [exact Hf|].
  exact (add_touches_one_slot sample_add_hedge_option sample_calc_hedge
           float_of_digits c args_put_short 10 row "Option B" Hr Hp Hrow Hf).
Defined.

Lemma greeks_entries_are_whole_witness :
  let c := sample_session [pick_100_long_call; add_call_long; rmv_all] in
  sample_reachable c ∧
  (forall slot g,
     greeks c !! slot = Some g ->
     g = ∅ ∨ dom g = ({[ "Delta"; "Gamma"; "Vega" ]} : gset string)) ∧
  (forall slot, greeks_in c slot = delta_in c slot).
Proof.
  intros c.
  assert (Hr : sample_reachable c)
    by by_sample_session [pick_100_long_call; add_call_long; rmv_all].
  clearbody c.
  split; [exact Hr|].
  exact (greeks_entries_are_whole sample_add_hedge_option sample_calc_hedge
           float_of_digits c Hr).
Defined.

Lemma positions_table_rows_witness :
  let c := sample_session [pick_100_long_call; add_call_long] in
  sample_reachable c ∧
  portfolio_leg_empty c ∧
  length (positions_of (options c))
  = (Nat.b2n (leg_in c "Option A") + Nat.b2n (leg_in c "Option B"))%nat ∧
  (length (positions_of (options c)) <= 2)%nat.
Proof.
  intros c.
  assert (Hr : sample_reachable c)
    by by_sample_session [pick_100_long_call; add_call_long].
  clearbody c.
  split; [exact Hr|].
  exact (positions_table_rows sample_add_hedge_option sample_calc_hedge
           float_of_digits c Hr).
Defined.

Lemma no_completions_offline_witness :
  let c := session sample_add_hedge_option sample_calc_hedge float_of_digits
             sample_controller_offline [pick_100_long_call; add_call_long] in
  interactive c = false ∧ choices_rmv c = None.
Proof.
  intros c.
  assert (Hr : sample_reachable c).
  { exists "TSLA", "2030-01-18", sample_calls, sample_puts, (102 # 1)%Q, false,
      sample_controller_offline, [pick_100_long_call; add_call_long].
    split; [reflexivity | vm_compute; reflexivity]. }
  assert (Hi : interactive c = false) by (vm_compute; reflexivity).
  clearbody c.
  split; [exact Hi|].
  exact (no_completions_offline sample_add_hedge_option sample_calc_hedge
           float_of_digits c Hr Hi).
Defined.

Lemma print_help_marks_witness :
  let c := sample_session [pick_100_long_call] in
  sample_reachable c ∧
  print_help c
  = Ret tt c
      [Print (help_text c
                (if greeks_in c "Portfolio" then "" else "[unvl]")
                (if greeks_in c "Portfolio" then "" else "[/unvl]")
                (if delta_in c "Option A" || delta_in c "Option B"
                 then "" else "[unvl]")
                (if delta_in c "Option A" || delta_in c "Option B"
                 then "" else "[/unvl]"))] ∧
  (forall a d,
     trace (call_add sample_add_hedge_option sample_calc_hedge (Some a) d c)
     = [Print msg_pick_first]
     <-> greeks_in c "Portfolio" = false) ∧
  (leg_in c "Option A" = true ∨ leg_in c "Option B" = true ->
   delta_in c "Option A" || delta_in c "Option B" = true).
Proof.
  intros c.
  assert (Hr : sample_reachable c) by by_sample_session [pick_100_long_call].
  clearbody c.
  split; [exact Hr|].
  exact (print_help_marks sample_add_hedge_option sample_calc_hedge
           float_of_digits c Hr).
Defined.

Lemma pick_forgets_pick_witness :
  let c := sample_session [pick_100_long_call; add_call_long] in
  pick_column "Call" c ≠ [] ∧
  call_pick sample_add_hedge_option float_of_digits (Some args_pick_short) 10
    (final (call_pick sample_add_hedge_option float_of_digits
              (Some args_pick_abc) 20 c))
  = call_pick sample_add_hedge_option float_of_digits (Some args_pick_short) 10
      c.
Proof.
  intros c.
  assert (Hr : sample_reachable c)
    by by_sample_session [pick_100_long_call; add_call_long].
  assert (Hcol : pick_column "Call" c ≠ [])
    by (intros H; vm_compute in H; discriminate H).
  clearbody c.
  split; [exact Hcol|].
  exact (pick_forgets_pick sample_add_hedge_option sample_calc_hedge
           float_of_digits c (Some args_pick_abc) 20 args_pick_short 10
           "100" "Short" "Call" (inject_Z 1000) (inject_Z 100) Hr eq_refl
           eq_refl eq_refl Hcol).
Defined.


Lemma add_then_rmv_restores_witness :
  let c := sample_session [pick_100_long_call] in
  let o1 := call_add sample_add_hedge_option sample_calc_hedge
              (Some args_call_long) 10 c in
  let o2 := call_rmv (Some args_rmv_option_a) (final o1) in
  free_slot c = Some "Option A" ∧
  returns o1 = true ∧ returns o2 = true ∧
  leg_in (final o1) "Option A" = true ∧
  options (final o2) = options c ∧ greeks (final o2) = greeks c ∧
  underlying_asset_position (final o2) = underlying_asset_position c ∧
  underlying (final o2) = underlying c ∧ side (final o2) = side c ∧
  amount (final o2) = amount c ∧ strike (final o2) = strike c.
Proof.
  intros c.
  assert (Hr : sample_reachable c) by by_sample_session [pick_100_long_call].
  assert (Hp : greeks_in c "Portfolio" = true) by (vm_compute; reflexivity).
  assert (Hf : free_slot c = Some "Option A") by (vm_compute; reflexivity).
  assert (Hrow : nth_error (options_list args_call_long c)
                   (identifier args_call_long)
                 = Some ((100 # 1)%Q, (1 # 5)%Q, (5 # 1)%Q))
    by (vm_compute; reflexivity).
  clearbody c.
  intros o1 o2. split; [exact Hf|].
  exact (add_then_rmv_restores sample_add_hedge_option sample_calc_hedge
           float_of_digits c args_call_long 10 _ "Option A" args_rmv_option_a
           ["Option"; "A"] Hr Hp Hrow Hf eq_refl eq_refl eq_refl).
Defined.

Lemma call_pick_only_portfolio_witness :
  let c := sample_session [pick_100_long_call; add_call_long] in
  let o := call_pick sample_add_hedge_option float_of_digits
             (Some args_pick_999) 10 c in
  leg_in c "Option A" = true ∧
  options (final o) = options c ∧
  greeks (final o) !! "Option A" = greeks c !! "Option A" ∧
  exists row g,
    last (pick_column "Call" c) = Some row ∧
    let sd := if String.eqb "Call" "Put" then -1 else 1 in
    let r := sample_add_hedge_option (current_price c) (row_iv row)
               (inject_Z 999) (years_to_expiry 10) sd in
    returns o = true ∧
    calculator_calls (trace o)
      = [(current_price c, row_iv row, inject_Z 999, years_to_expiry 10, sd)] ∧
    greeks (final o) !! "Portfolio" = Some g ∧
    g !! "Delta" = Some (fst (fst r)) ∧
    g !! "Gamma" = Some (snd (fst r)) ∧
    g !! "Vega" = Some (snd r) ∧
    dom g = ({[ "Delta"; "Gamma"; "Vega" ]} : gset string).
Proof.
  intros c.
  assert (Hr : sample_reachable c)
    by by_sample_session [pick_100_long_call; add_call_long].
  assert (Hleg : leg_in c "Option A" = true) by (vm_compute; reflexivity).
  clearbody c.
  intros o. split; [exact Hleg|].
  destruct (call_pick_only_portfolio sample_add_hedge_option sample_calc_hedge
              float_of_digits c (Some args_pick_999) 10)
    as (Ho & HA & _ & _ & _ & Hover).
  split; [exact Ho|]. split; [exact HA|].
  refine (Hover args_pick_999 "999" "Long" "Call" (inject_Z 1000)
            (inject_Z 999) Hr eq_refl eq_refl eq_refl eq_refl _).
  intros H. discriminate H.
Defined.
